(** * Format auto-detection between the .lzma Stream and LZMA_Alone decoders

    A shallow embedding of [src/liblzma/common/auto_decoder.c] and the
    properties of its three-state dispatcher ([SEQ_INIT], [SEQ_CODE],
    [SEQ_FINISH]).

    The dispatcher calls into code that lives in other translation units
    (the two concrete decoders, the allocator, the generic coder helpers).
    Those collaborators are taken as parameters, gathered in the class
    [liblzma]; every theorem below holds for all of them.  Calls that the
    dispatcher makes, and the stores to its own [sequence] field, are
    recorded in a chronological trace so that ordering properties can be
    stated. *)

From Stdlib Require Import ZArith List Bool Lia Sorted RelationClasses.
From Stdlib Require Import Strings.Byte.
Import ListNotations.
Local Open Scope Z_scope.

(* ------------------------------------------------------------------ *)
(** ** Enumerations of the public interface *)

(** Modelled from the spec: the status enumeration [lzma_ret] is declared in
    the public header, which is not under src/.  The constructors are the
    eight statuses that auto_decoder.c names (spec section 7: Ok, StreamEnd,
    NoCheckPresent, CheckKindPending, AllocationError, OptionsError,
    DataFormatError, InternalInvariantError); [LZMA_RET_OTHER] stands for
    every further value of the enumeration, which only a collaborator can
    produce. *)
Inductive lzma_ret : Type :=
| LZMA_OK
| LZMA_STREAM_END
| LZMA_NO_CHECK
| LZMA_GET_CHECK
| LZMA_MEM_ERROR
| LZMA_OPTIONS_ERROR
| LZMA_DATA_ERROR
| LZMA_PROG_ERROR
| LZMA_RET_OTHER (n : Z).

Definition lzma_ret_eq_dec (a b : lzma_ret) : {a = b} + {a <> b}.
Proof. decide equality; apply Z.eq_dec. Defined.

Definition lzma_ret_eqb (a b : lzma_ret) : bool :=
  if lzma_ret_eq_dec a b then true else false.

(** Modelled from the spec: the action enumeration [lzma_action] of the
    public header, not under src/.  [LZMA_RUN] is the spec's Continue and
    [LZMA_FINISH] its Finish; [LZMA_ACTION_OTHER] stands for the remaining
    values of the enumeration. *)
Inductive lzma_action : Type :=
| LZMA_RUN
| LZMA_FINISH
| LZMA_ACTION_OTHER (n : Z).

Definition lzma_action_eq_dec (a b : lzma_action) : {a = b} + {a <> b}.
Proof. decide equality; apply Z.eq_dec. Defined.

Definition lzma_action_eqb (a b : lzma_action) : bool :=
  if lzma_action_eq_dec a b then true else false.

(** [lzma_check] is an integer identifier; [LZMA_CHECK_NONE] is the one
    value auto_decoder.c names. *)
Definition lzma_check := Z.
Definition LZMA_CHECK_NONE : lzma_check := 0.

(** The anonymous enumeration of [struct lzma_coder_s].  The field is a
    C enumeration, so it can also hold an integer that is none of the
    three enumerators (a misused or corrupted handle): [SEQ_INVALID] is
    such a value, the one the [default:] branch of [auto_decode] is
    for. *)
Inductive seq_state : Type :=
| SEQ_INIT
| SEQ_CODE
| SEQ_FINISH
| SEQ_INVALID (n : Z).

Definition seq_state_eq_dec (a b : seq_state) : {a = b} + {a <> b}.
Proof. decide equality; apply Z.eq_dec. Defined.

(** Position of a state in the order Init, Code, Finish.  A value outside
    the enumeration comes after the three states: no call stores one, and
    a dispatcher that holds one never leaves it. *)
Definition seq_rank (s : seq_state) : nat :=
  match s with
  | SEQ_INIT => 0
  | SEQ_CODE => 1
  | SEQ_FINISH => 2
  | SEQ_INVALID _ => 3
  end%nat.

Definition seq_le (a b : seq_state) : Prop := (seq_rank a <= seq_rank b)%nat.

(** What a call leaves behind in the trace, in the order it happened. *)
Inductive event : Type :=
| EvSequence (s : seq_state)                   (* coder->sequence = s *)
| EvPeek (pos : nat) (b : byte)                (* in[pos] was read    *)
| EvStreamInit (memlimit flags : Z) (r : lzma_ret)
| EvAloneInit (memlimit : Z) (r : lzma_ret)
| EvCode (action : lzma_action) (r : lzma_ret) (* coder->next.code    *)
| EvAlloc (ok : bool).                         (* lzma_alloc          *)

(** Status reported by an initializer event, if the event is one. *)
Definition init_status (e : event) : option lzma_ret :=
  match e with
  | EvStreamInit _ _ r => Some r
  | EvAloneInit _ r => Some r
  | _ => None
  end.

Definition is_init_event (e : event) : bool :=
  match init_status e with Some _ => true | None => false end.

Definition is_peek_event (e : event) : bool :=
  match e with EvPeek _ _ => true | _ => false end.

Definition is_code_event (e : event) : bool :=
  match e with EvCode _ _ => true | _ => false end.

Definition is_alloc_event (e : event) : bool :=
  match e with EvAlloc _ => true | _ => false end.

(* ------------------------------------------------------------------ *)
(** ** The streaming coder interface ([lzma_next_coder]) *)

Section Interface.

(** State of the caller's [lzma_allocator], whatever it is. *)
Variable allocator : Type.

(** Everything a [code] function can change: its own state, the allocator,
    both cursors and the output buffer. *)
Record code_result (C : Type) : Type := mk_code_result {
  cr_ret : lzma_ret;
  cr_coder : option C;
  cr_allocator : allocator;
  cr_in_pos : nat;
  cr_out : list byte;
  cr_out_pos : nat
}.

(** [code(coder, allocator, in, in_pos, in_size, out, out_pos, out_size,
    action)].  A pointer that may be NULL is an [option]; [None] as a
    result is undefined behaviour inside the callee. *)
Definition code_fn (C : Type) : Type :=
  option C -> allocator -> list byte -> nat -> nat ->
  list byte -> nat -> nat -> lzma_action -> option (code_result C).

Definition end_fn (C : Type) : Type :=
  option C -> allocator -> option allocator.

Definition get_check_fn (C : Type) : Type :=
  option C -> option lzma_check.

(** Modelled from the spec: [lzma_next_coder] is declared in common.h,
    not under src/.  It is the spec's Streaming Coder capability set
    (advance, release, reported_check_kind) together with the owned state
    and the identity of the initializer that set the slot up. *)
Record lzma_next_coder (C : Type) : Type := mk_next_coder {
  coder : option C;
  init : Z;
  code : option (code_fn C);
  end_ : option (end_fn C);
  get_check : option (get_check_fn C)
}.

(** Modelled from the spec: the macro [LZMA_NEXT_CODER_INIT] of common.h,
    the empty slot (spec section 3: a slot is created empty). *)
Definition LZMA_NEXT_CODER_INIT (C : Type) : lzma_next_coder C :=
  {| coder := None; init := 0; code := None; end_ := None;
     get_check := None |}.

End Interface.

Arguments mk_code_result {allocator C}.
Arguments cr_ret {allocator C}.
Arguments cr_coder {allocator C}.
Arguments cr_allocator {allocator C}.
Arguments cr_in_pos {allocator C}.
Arguments cr_out {allocator C}.
Arguments cr_out_pos {allocator C}.
Arguments mk_next_coder {allocator C}.
Arguments coder {allocator C}.
Arguments init {allocator C}.
Arguments code {allocator C}.
Arguments end_ {allocator C}.
Arguments get_check {allocator C}.
Arguments LZMA_NEXT_CODER_INIT {allocator C}.

(** The collaborators of auto_decoder.c: constants, helpers and the two
    concrete decoders' initializers, none of which is defined in the file. *)
Class liblzma : Type := {
  allocator : Type;
  (** private state of a concrete decoder (its own [lzma_coder]) *)
  nested : Type;
  LZMA_TELL_NO_CHECK : Z;
  LZMA_TELL_ANY_CHECK : Z;
  LZMA_CONCATENATED : Z;
  LZMA_SUPPORTED_FLAGS : Z;
  (** [(uintptr_t)(auto_decoder_init)] *)
  auto_decoder_init_addr : Z;
  (** [lzma_alloc(size, allocator)]: whether storage was obtained *)
  lzma_alloc : allocator -> bool * allocator;
  lzma_free : allocator -> allocator;
  lzma_next_end :
    forall C : Type,
      lzma_next_coder allocator C -> allocator ->
      lzma_next_coder allocator C * allocator;
  lzma_stream_decoder_init :
    lzma_next_coder allocator nested -> allocator -> Z -> Z ->
    lzma_ret * lzma_next_coder allocator nested * allocator;
  lzma_alone_decoder_init :
    lzma_next_coder allocator nested -> allocator -> Z ->
    lzma_ret * lzma_next_coder allocator nested * allocator
}.

(* ------------------------------------------------------------------ *)
(** ** The dispatcher *)

Section AutoDecoder.

Context {L : liblzma}.

(** [struct lzma_coder_s] of auto_decoder.c. *)
Record lzma_coder : Type := mk_coder {
  next : lzma_next_coder allocator nested;
  memlimit : Z;
  flags : Z;
  sequence : seq_state
}.

Definition set_sequence (s : seq_state) (c : lzma_coder) : lzma_coder :=
  {| next := next c; memlimit := memlimit c; flags := flags c;
     sequence := s |}.

Definition set_next (n : lzma_next_coder allocator nested) (c : lzma_coder)
  : lzma_coder :=
  {| next := n; memlimit := memlimit c; flags := flags c;
     sequence := sequence c |}.

(** Everything one call of [auto_decode] can touch: [*coder], the
    allocator, [*in_pos], the output buffer, [*out_pos]; and the trace of
    what it did. *)
Record machine : Type := mk_machine {
  m_coder : lzma_coder;
  m_allocator : allocator;
  m_in_pos : nat;
  m_out : list byte;
  m_out_pos : nat;
  m_trace : list event
}.

Definition log (e : event) (m : machine) : machine :=
  {| m_coder := m_coder m; m_allocator := m_allocator m;
     m_in_pos := m_in_pos m; m_out := m_out m; m_out_pos := m_out_pos m;
     m_trace := m_trace m ++ [e] |}.

Definition with_coder (c : lzma_coder) (m : machine) : machine :=
  {| m_coder := c; m_allocator := m_allocator m;
     m_in_pos := m_in_pos m; m_out := m_out m; m_out_pos := m_out_pos m;
     m_trace := m_trace m |}.

(** *** State monad with early return

    [Next a] goes on with the next statement, [Return r] leaves the
    function with status [r], [Fault] is undefined behaviour (a call
    through a NULL function pointer, a read past the input buffer). *)
Inductive flow (A : Type) : Type :=
| Next (a : A)
| Return (r : lzma_ret)
| Fault.
Arguments Next {A}.
Arguments Return {A}.
Arguments Fault {A}.

Definition M (A : Type) : Type := machine -> flow A * machine.

Definition ret {A} (a : A) : M A := fun m => (Next a, m).

Definition bind {A B} (x : M A) (k : A -> M B) : M B :=
  fun m =>
    match x m with
    | (Next a, m') => k a m'
    | (Return r, m') => (Return r, m')
    | (Fault, m') => (Fault, m')
    end.

Notation "x <- c1 ;; c2" := (bind c1 (fun x => c2))
  (at level 61, c1 at next level, right associativity).
Notation "c1 ;; c2" := (bind c1 (fun _ => c2))
  (at level 61, right associativity).

Definition return_ {A} (r : lzma_ret) : M A := fun m => (Return r, m).
Definition fault {A} : M A := fun m => (Fault, m).
Definition gets {A} (f : machine -> A) : M A := fun m => (Next (f m), m).
Definition modify (f : machine -> machine) : M unit :=
  fun m => (Next tt, f m).

(** Modelled from the spec: the macro [return_if_error] of common.h, not
    under src/: leave the function with the status unless it is Ok (spec
    section 7: errors of a collaborator are surfaced verbatim). *)
Definition return_if_error (e : M lzma_ret) : M unit :=
  r <- e ;;
  if lzma_ret_eqb r LZMA_OK then ret tt else return_ r.

(** [coder->sequence = s] *)
Definition store_sequence (s : seq_state) : M unit :=
  modify (fun m =>
    log (EvSequence s) (with_coder (set_sequence s (m_coder m)) m)).

(** [in[*in_pos]] *)
Definition peek (inb : list byte) : M byte :=
  pos <- gets m_in_pos ;;
  match nth_error inb pos with
  | Some b => modify (log (EvPeek pos b)) ;; ret b
  | None => fault
  end.

(** [lzma_stream_decoder_init(&coder->next, allocator, coder->memlimit,
    coder->flags)] *)
Definition call_stream_decoder_init : M lzma_ret :=
  c <- gets m_coder ;;
  a <- gets m_allocator ;;
  let '(r, n', a') :=
    lzma_stream_decoder_init (next c) a (memlimit c) (flags c) in
  modify (fun m =>
    log (EvStreamInit (memlimit c) (flags c) r)
      {| m_coder := set_next n' c; m_allocator := a';
         m_in_pos := m_in_pos m; m_out := m_out m;
         m_out_pos := m_out_pos m; m_trace := m_trace m |}) ;;
  ret r.

(** [lzma_alone_decoder_init(&coder->next, allocator, coder->memlimit)] *)
Definition call_alone_decoder_init : M lzma_ret :=
  c <- gets m_coder ;;
  a <- gets m_allocator ;;
  let '(r, n', a') := lzma_alone_decoder_init (next c) a (memlimit c) in
  modify (fun m =>
    log (EvAloneInit (memlimit c) r)
      {| m_coder := set_next n' c; m_allocator := a';
         m_in_pos := m_in_pos m; m_out := m_out m;
         m_out_pos := m_out_pos m; m_trace := m_trace m |}) ;;
  ret r.

(** [coder->next.code(coder->next.coder, allocator, in, in_pos, in_size,
    out, out_pos, out_size, action)] *)
Definition call_next_code (inb : list byte) (in_size out_size : nat)
    (action : lzma_action) : M lzma_ret :=
  c <- gets m_coder ;;
  match code (next c) with
  | None => fault
  | Some f =>
      fun m =>
        match f (coder (next c)) (m_allocator m) inb (m_in_pos m) in_size
                (m_out m) (m_out_pos m) out_size action with
        | None => (Fault, m)
        | Some res =>
            (Next (cr_ret res),
             {| m_coder :=
                  set_next {| coder := cr_coder res;
                              init := init (next c);
                              code := code (next c);
                              end_ := end_ (next c);
                              get_check := get_check (next c) |} c;
                m_allocator := cr_allocator res;
                m_in_pos := cr_in_pos res;
                m_out := cr_out res;
                m_out_pos := cr_out_pos res;
                m_trace := m_trace m ++ [EvCode action (cr_ret res)] |})
        end
  end.

(** *** [auto_decode], one case of the [switch] at a time; a case that
    ends in [ret tt] falls through to the next one. *)

Definition case_SEQ_INIT (inb : list byte) (in_size : nat) : M unit :=
  pos <- gets m_in_pos ;;
  if (in_size <=? pos)%nat then return_ LZMA_OK
  else
    store_sequence SEQ_CODE ;;
    b <- peek inb ;;
    if Byte.eqb b xfd then
      return_if_error call_stream_decoder_init
    else
      return_if_error call_alone_decoder_init ;;
      c <- gets m_coder ;;
      if negb (Z.land (flags c) LZMA_TELL_NO_CHECK =? 0) then
        return_ LZMA_NO_CHECK
      else if negb (Z.land (flags c) LZMA_TELL_ANY_CHECK =? 0) then
        return_ LZMA_GET_CHECK
      else ret tt.

Definition case_SEQ_CODE (inb : list byte) (in_size out_size : nat)
    (action : lzma_action) : M unit :=
  r <- call_next_code inb in_size out_size action ;;
  c <- gets m_coder ;;
  if negb (lzma_ret_eqb r LZMA_STREAM_END)
     || (Z.land (flags c) LZMA_CONCATENATED =? 0)
  then return_ r
  else store_sequence SEQ_FINISH.

Definition case_SEQ_FINISH (in_size : nat) (action : lzma_action) : M unit :=
  pos <- gets m_in_pos ;;
  if (pos <? in_size)%nat then return_ LZMA_DATA_ERROR
  else
    return_ (if lzma_action_eqb action LZMA_FINISH
             then LZMA_STREAM_END else LZMA_OK).

(** The body of [auto_decode].  In the [default:] branch the [assert(0)]
    is compiled out of a release build, so the branch returns
    [LZMA_PROG_ERROR]. *)
Definition auto_decode_body (inb : list byte) (in_size out_size : nat)
    (action : lzma_action) : M unit :=
  s <- gets (fun m => sequence (m_coder m)) ;;
  match s with
  | SEQ_INIT =>
      case_SEQ_INIT inb in_size ;;
      case_SEQ_CODE inb in_size out_size action ;;
      case_SEQ_FINISH in_size action
  | SEQ_CODE =>
      case_SEQ_CODE inb in_size out_size action ;;
      case_SEQ_FINISH in_size action
  | SEQ_FINISH =>
      case_SEQ_FINISH in_size action
  | SEQ_INVALID _ =>
      return_ LZMA_PROG_ERROR
  end.

(** [auto_decode(coder, allocator, in, in_pos, in_size, out, out_pos,
    out_size, action)]: the status returned ([None] when the call runs
    into undefined behaviour) and the machine it leaves. *)
Definition auto_decode (inb : list byte) (in_size out_size : nat)
    (action : lzma_action) (m : machine) : option lzma_ret * machine :=
  match auto_decode_body inb in_size out_size action m with
  | (Return r, m') => (Some r, m')
  | (Next _, m') => (None, m')
  | (Fault, m') => (None, m')
  end.

(** The value of [&auto_decode], as stored in a [lzma_next_coder]: the
    same function seen through the streaming coder interface. *)
Definition auto_decode_ptr : code_fn allocator lzma_coder :=
  fun p a inb in_pos in_size out out_pos out_size action =>
    match p with
    | None => None
    | Some c =>
        match auto_decode inb in_size out_size action
                {| m_coder := c; m_allocator := a; m_in_pos := in_pos;
                   m_out := out; m_out_pos := out_pos; m_trace := [] |} with
        | (Some r, m') =>
            Some {| cr_ret := r; cr_coder := Some (m_coder m');
                    cr_allocator := m_allocator m';
                    cr_in_pos := m_in_pos m'; cr_out := m_out m';
                    cr_out_pos := m_out_pos m' |}
        | (None, _) => None
        end
    end.

(** [auto_decoder_end]: release the nested coder, then the dispatcher's
    own storage. *)
Definition auto_decoder_end : end_fn allocator lzma_coder :=
  fun p a =>
    match p with
    | None => None
    | Some c =>
        let '(_, a1) := lzma_next_end nested (next c) a in
        Some (lzma_free a1)
    end.

(** [auto_decoder_get_check]: it is LZMA_Alone if [get_check] is NULL. *)
Definition auto_decoder_get_check : get_check_fn lzma_coder :=
  fun p =>
    match p with
    | None => None
    | Some c =>
        match get_check (next c) with
        | None => Some LZMA_CHECK_NONE
        | Some g => g (coder (next c))
        end
    end.

(** 32-bit complement, the [~] of the source on a [uint32_t]. *)
Definition lnot32 (x : Z) : Z := Z.lxor x 0xFFFFFFFF.

(** Modelled from the spec: the macro [lzma_next_coder_init(func, next,
    allocator)] of common.h, not under src/.  It is the re-initialization
    protocol of the spec's sections 2 and 3 (configuration "allocates or
    reuses storage"; a handle re-issued to the same setup keeps its
    allocation): a handle last set up by another initializer is released
    with [lzma_next_end], a handle that [func] itself set up is kept; the
    handle then records [func]. *)
Definition lzma_next_coder_init {C : Type} (func : Z)
    (n : lzma_next_coder allocator C) (a : allocator)
  : lzma_next_coder allocator C * allocator :=
  let '(n1, a1) :=
    if func =? init n then (n, a) else lzma_next_end C n a in
  ({| coder := coder n1; init := func; code := code n1; end_ := end_ n1;
      get_check := get_check n1 |}, a1).

(** The result of [auto_decoder_init]: status, the handle, the allocator,
    and whether [lzma_alloc] was called. *)
Record init_result : Type := mk_init_result {
  ir_ret : lzma_ret;
  ir_next : lzma_next_coder allocator lzma_coder;
  ir_allocator : allocator;
  ir_trace : list event
}.

(** [auto_decoder_init(next, allocator, memlimit, flags)].  A block that
    [lzma_alloc] hands out has all four fields of the dispatcher assigned
    before the function returns, so it is built in one step here.  The
    public wrapper [lzma_auto_decoder] adds the stream-level set-up of
    [lzma_next_strm_init], which belongs to the surrounding layer. *)
Definition auto_decoder_init (n : lzma_next_coder allocator lzma_coder)
    (a : allocator) (memlimit_ flags_ : Z) : init_result :=
  let '(n1, a1) := lzma_next_coder_init auto_decoder_init_addr n a in
  if negb (Z.land flags_ (lnot32 LZMA_SUPPORTED_FLAGS) =? 0) then
    {| ir_ret := LZMA_OPTIONS_ERROR; ir_next := n1; ir_allocator := a1;
       ir_trace := [] |}
  else
    match coder n1 with
    | None =>
        let '(ok, a2) := lzma_alloc a1 in
        if negb ok then
          {| ir_ret := LZMA_MEM_ERROR; ir_next := n1; ir_allocator := a2;
             ir_trace := [EvAlloc false] |}
        else
          {| ir_ret := LZMA_OK;
             ir_next :=
               {| coder := Some {| next := LZMA_NEXT_CODER_INIT;
                                   memlimit := memlimit_;
                                   flags := flags_;
                                   sequence := SEQ_INIT |};
                  init := init n1;
                  code := Some auto_decode_ptr;
                  end_ := Some auto_decoder_end;
                  get_check := Some auto_decoder_get_check |};
             ir_allocator := a2;
             ir_trace := [EvAlloc true] |}
    | Some c =>
        {| ir_ret := LZMA_OK;
           ir_next :=
             {| coder := Some {| next := next c;
                                 memlimit := memlimit_;
                                 flags := flags_;
                                 sequence := SEQ_INIT |};
                init := init n1; code := code n1; end_ := end_ n1;
                get_check := get_check n1 |};
           ir_allocator := a1;
           ir_trace := [] |}
    end.

(** *** Successive calls

    The arguments the caller supplies to one call: the two buffer
    windows with their cursors, and the action. *)
Record call : Type := mk_call {
  a_in : list byte;
  a_in_pos : nat;
  a_in_size : nat;
  a_out : list byte;
  a_out_pos : nat;
  a_out_size : nat;
  a_action : lzma_action
}.

(** The machine at the start of a call on the dispatcher [(c, a)]. *)
Definition enter (k : call) (c : lzma_coder) (a : allocator) : machine :=
  {| m_coder := c; m_allocator := a; m_in_pos := a_in_pos k;
     m_out := a_out k; m_out_pos := a_out_pos k; m_trace := [] |}.

Definition advance (k : call) (c : lzma_coder) (a : allocator)
  : option lzma_ret * machine :=
  auto_decode (a_in k) (a_in_size k) (a_out_size k) (a_action k)
    (enter k c a).

(** A caller that makes the calls of [ks] one after the other on the same
    dispatcher, and stops at undefined behaviour.  The result lists, per
    call made, the status and the machine it left. *)
Fixpoint drive (ks : list call) (c : lzma_coder) (a : allocator)
  : list (option lzma_ret * machine) :=
  match ks with
  | [] => []
  | k :: ks' =>
      let '(r, m) := advance k c a in
      (r, m) ::
      match r with
      | Some _ => drive ks' (m_coder m) (m_allocator m)
      | None => []
      end
  end.

(** *** The stages of a call, for stating properties *)

(** An event that belongs to format detection: the peek at the first
    byte, or the call of a concrete decoder's initializer. *)
Definition is_detection_event (e : event) : bool :=
  is_peek_event e || is_init_event e.

(** The nested coder's call on machine [m]: [None] for a NULL [code]
    pointer or a callee that runs into undefined behaviour. *)
Definition nested_call (inb : list byte) (in_size out_size : nat)
    (action : lzma_action) (m : machine)
  : option (code_result allocator nested) :=
  match code (next (m_coder m)) with
  | None => None
  | Some f =>
      f (coder (next (m_coder m))) (m_allocator m) inb (m_in_pos m)
        in_size (m_out m) (m_out_pos m) out_size action
  end.

(** The machine right after the nested coder's [code] returned [res]. *)
Definition after_code (action : lzma_action)
    (res : code_result allocator nested) (m : machine) : machine :=
  let c := m_coder m in
  {| m_coder :=
       set_next {| coder := cr_coder res; init := init (next c);
                   code := code (next c); end_ := end_ (next c);
                   get_check := get_check (next c) |} c;
     m_allocator := cr_allocator res;
     m_in_pos := cr_in_pos res;
     m_out := cr_out res;
     m_out_pos := cr_out_pos res;
     m_trace := m_trace m ++ [EvCode action (cr_ret res)] |}.

(** The machine once [SEQ_CODE] has moved on to [SEQ_FINISH]. *)
Definition after_stream_end (action : lzma_action)
    (res : code_result allocator nested) (m : machine) : machine :=
  let m1 := after_code action res m in
  log (EvSequence SEQ_FINISH)
      (with_coder (set_sequence SEQ_FINISH (m_coder m1)) m1).

(** [SEQ_CODE] and what it falls through to, as one function of the
    machine. *)
Definition code_stage (inb : list byte) (in_size out_size : nat)
    (action : lzma_action) : M unit :=
  case_SEQ_CODE inb in_size out_size action ;;
  case_SEQ_FINISH in_size action.

(** The status the [SEQ_FINISH] case returns with the input cursor at
    [pos]. *)
Definition finish_status (pos in_size : nat) (action : lzma_action)
  : lzma_ret :=
  if (pos <? in_size)%nat then LZMA_DATA_ERROR
  else if lzma_action_eqb action LZMA_FINISH
       then LZMA_STREAM_END else LZMA_OK.

(** The initializer that detection on byte [b] calls, with the arguments
    the source passes. *)
Definition detected_init (b : byte) (m : machine)
  : lzma_ret * lzma_next_coder allocator nested * allocator :=
  let c := m_coder m in
  if Byte.eqb b xfd
  then lzma_stream_decoder_init (next c) (m_allocator m)
         (memlimit c) (flags c)
  else lzma_alone_decoder_init (next c) (m_allocator m) (memlimit c).

Definition detected_status (b : byte) (m : machine) : lzma_ret :=
  fst (fst (detected_init b m)).

Definition detected_event (b : byte) (m : machine) : event :=
  let c := m_coder m in
  if Byte.eqb b xfd
  then EvStreamInit (memlimit c) (flags c) (detected_status b m)
  else EvAloneInit (memlimit c) (detected_status b m).

(** The machine once detection on byte [b] has called its initializer. *)
Definition after_init (b : byte) (m : machine) : machine :=
  let c := m_coder m in
  {| m_coder :=
       {| next := snd (fst (detected_init b m)); memlimit := memlimit c;
          flags := flags c; sequence := SEQ_CODE |};
     m_allocator := snd (detected_init b m);
     m_in_pos := m_in_pos m;
     m_out := m_out m;
     m_out_pos := m_out_pos m;
     m_trace := ((m_trace m ++ [EvSequence SEQ_CODE])
                 ++ [EvPeek (m_in_pos m) b]) ++ [detected_event b m] |}.

(** How the [SEQ_INIT] case ends once the initializer has returned. *)
Definition init_outcome (b : byte) (m : machine) : flow unit :=
  let r := detected_status b m in
  if negb (lzma_ret_eqb r LZMA_OK) then Return r
  else if Byte.eqb b xfd then Next tt
  else if negb (Z.land (flags (m_coder m)) LZMA_TELL_NO_CHECK =? 0)
       then Return LZMA_NO_CHECK
  else if negb (Z.land (flags (m_coder m)) LZMA_TELL_ANY_CHECK =? 0)
       then Return LZMA_GET_CHECK
  else Next tt.

(** The machine of a detecting call right after [coder->sequence =
    SEQ_CODE], before the byte is read. *)
Definition after_store (m : machine) : machine :=
  log (EvSequence SEQ_CODE)
      (with_coder (set_sequence SEQ_CODE (m_coder m)) m).

(** The machine [m0] on which a call entered with machine [m] reaches the
    [SEQ_CODE] case: [m] itself when the call starts there, the machine
    the initializer left when the [SEQ_INIT] case fell through. *)
Definition reaches_code (inb : list byte) (in_size : nat)
    (m m0 : machine) : Prop :=
  (sequence (m_coder m) = SEQ_CODE /\ m0 = m)
  \/ (exists b,
        sequence (m_coder m) = SEQ_INIT
        /\ (m_in_pos m < in_size)%nat
        /\ nth_error inb (m_in_pos m) = Some b
        /\ init_outcome b m = Next tt
        /\ m0 = after_init b m).

(** The status of the last collaborator event of a trace, if it has one
    with a status. *)
Definition event_status (e : event) : option lzma_ret :=
  match e with
  | EvStreamInit _ _ r => Some r
  | EvAloneInit _ r => Some r
  | EvCode _ r => Some r
  | _ => None
  end.

End AutoDecoder.

(* ------------------------------------------------------------------ *)
(** ** A concrete set of collaborators

    A small, executable instance of [liblzma] on which the theorems can be
    run.  The allocator is a budget of blocks that may still be handed out.
    Both concrete decoders are the same "stored" decoder: its state is the
    number of payload bytes it still expects; it copies what fits and
    reports stream end once nothing is expected any more, whatever the
    action.  An initializer needs one block and fails with
    [LZMA_MEM_ERROR] when the budget is exhausted. *)
Module Fixture.

Definition stored_code : code_fn nat nat :=
  fun p a inb in_pos in_size out out_pos out_size _ =>
    match p with
    | None => None
    | Some remaining =>
        let n := Nat.min remaining
                   (Nat.min (in_size - in_pos) (out_size - out_pos)) in
        Some {| cr_ret := if (remaining - n =? 0)%nat
                          then LZMA_STREAM_END else LZMA_OK;
                cr_coder := Some (remaining - n)%nat;
                cr_allocator := a;
                cr_in_pos := (in_pos + n)%nat;
                cr_out := firstn out_pos out
                          ++ firstn n (skipn in_pos inb)
                          ++ skipn (out_pos + n) out;
                cr_out_pos := (out_pos + n)%nat |}
    end.

Definition stored_end : end_fn nat nat :=
  fun _ a => Some (S a).

(** Set up a stored decoder expecting [len] bytes. *)
Definition stored_init (self : Z) (len : nat)
    (n : lzma_next_coder nat nat) (a : nat)
  : lzma_ret * lzma_next_coder nat nat * nat :=
  match a with
  | O => (LZMA_MEM_ERROR, n, O)
  | S a' =>
      (LZMA_OK,
       {| coder := Some len; init := self; code := Some stored_code;
          end_ := Some stored_end; get_check := None |},
       a')
  end.

#[local] Instance stored : liblzma := {|
  allocator := nat;
  nested := nat;
  LZMA_TELL_NO_CHECK := 0x01;
  LZMA_TELL_ANY_CHECK := 0x04;
  LZMA_CONCATENATED := 0x08;
  LZMA_SUPPORTED_FLAGS := 0x0F;
  auto_decoder_init_addr := 0x1000;
  lzma_alloc := fun a => match a with O => (false, O) | S a' => (true, a') end;
  lzma_free := S;
  lzma_next_end := fun C n a =>
    if init n =? 0 then (n, a) else (LZMA_NEXT_CODER_INIT, S a);
  lzma_stream_decoder_init := fun n a _ _ => stored_init 0x2000 3 n a;
  lzma_alone_decoder_init := fun n a _ => stored_init 0x3000 2 n a
|}.

(** A dispatcher as [auto_decoder_init] leaves it, with the given flags. *)
Definition fresh (flags_ : Z) : lzma_coder :=
  {| next := LZMA_NEXT_CODER_INIT; memlimit := 65536; flags := flags_;
     sequence := SEQ_INIT |}.

(** A dispatcher that runs a stored decoder expecting [len] bytes, in
    state [s]. *)
Definition running (flags_ : Z) (len : nat) (s : seq_state) : lzma_coder :=
  {| next := {| coder := Some len; init := 0x3000;
                code := Some stored_code; end_ := Some stored_end;
                get_check := None |};
     memlimit := 65536; flags := flags_; sequence := s |}.

(** A call on the input window [inb] from [pos], with [room] bytes of
    output space. *)
Definition window (inb : list byte) (pos : nat) (room : nat)
    (action : lzma_action) : call :=
  {| a_in := inb; a_in_pos := pos; a_in_size := length inb;
     a_out := repeat x00 room; a_out_pos := 0; a_out_size := room;
     a_action := action |}.

(** A nested coder that knows its integrity check: it reports check
    kind 4. *)
Definition stored_get_check : get_check_fn nat :=
  fun _ => Some 4.

(** A dispatcher that runs a stored decoder which reports its check. *)
Definition running_checked (flags_ : Z) (len : nat) (s : seq_state)
  : lzma_coder :=
  {| next := {| coder := Some len; init := 0x2000;
                code := Some stored_code; end_ := Some stored_end;
                get_check := Some stored_get_check |};
     memlimit := 65536; flags := flags_; sequence := s |}.

(** The caller's handle around a dispatcher. *)
Definition handle (c : lzma_coder) : lzma_next_coder nat lzma_coder :=
  {| coder := Some c; init := 0x1000; code := Some auto_decode_ptr;
     end_ := Some auto_decoder_end;
     get_check := Some auto_decoder_get_check |}.

End Fixture.

(* ------------------------------------------------------------------ *)
(** ** Properties of the dispatcher *)

Arguments Next {A}.
Arguments Return {A}.
Arguments Fault {A}.

Section Properties.

Context {L : liblzma}.

Ltac simp_machine :=
  cbn [m_coder m_allocator m_in_pos m_out m_out_pos m_trace
       next memlimit flags sequence set_sequence set_next fst snd
       negb orb andb] in *.

Ltac unfold_monad :=
  unfold return_if_error, store_sequence in *;
  unfold bind, ret, return_, fault, gets, modify, log, with_coder in *;
  simp_machine.

(** *** Equations of [auto_decode], state by state *)

Lemma auto_decode_SEQ_FINISH inb in_size out_size action m :
  sequence (m_coder m) = SEQ_FINISH ->
  auto_decode inb in_size out_size action m =
  (Some (finish_status (m_in_pos m) in_size action), m).
Proof.
  intros Hs.
  unfold auto_decode, auto_decode_body, case_SEQ_FINISH, finish_status.
  unfold_monad. rewrite Hs.
  destruct (m_in_pos m <? in_size)%nat; reflexivity.
Qed.

Lemma auto_decode_SEQ_INIT_no_input inb in_size out_size action m :
  sequence (m_coder m) = SEQ_INIT ->
  (in_size <= m_in_pos m)%nat ->
  auto_decode inb in_size out_size action m = (Some LZMA_OK, m).
Proof.
  intros Hs Hle.
  unfold auto_decode, auto_decode_body, case_SEQ_INIT.
  unfold_monad. rewrite Hs.
  apply Nat.leb_le in Hle. rewrite Hle. reflexivity.
Qed.

Lemma code_stage_fault inb in_size out_size action m :
  nested_call inb in_size out_size action m = None ->
  code_stage inb in_size out_size action m = (Fault, m).
Proof.
  unfold nested_call, code_stage, case_SEQ_CODE, call_next_code.
  unfold_monad. intros H.
  destruct (code (next (m_coder m))) as [f|]; [|reflexivity].
  rewrite H. reflexivity.
Qed.

Lemma code_stage_forward inb in_size out_size action m res :
  nested_call inb in_size out_size action m = Some res ->
  ~ (cr_ret res = LZMA_STREAM_END
     /\ Z.land (flags (m_coder m)) LZMA_CONCATENATED <> 0) ->
  code_stage inb in_size out_size action m =
  (Return (cr_ret res), after_code action res m).
Proof.
  unfold nested_call, code_stage, case_SEQ_CODE, call_next_code, after_code.
  unfold_monad. intros H Hn.
  destruct (code (next (m_coder m))) as [f|]; [|discriminate].
  rewrite H. simp_machine.
  unfold lzma_ret_eqb.
  destruct (lzma_ret_eq_dec (cr_ret res) LZMA_STREAM_END) as [E|E];
    simp_machine; [|reflexivity].
  destruct (Z.eqb_spec (Z.land (flags (m_coder m)) LZMA_CONCATENATED) 0)
    as [Z0|Z0]; [reflexivity|].
  exfalso. apply Hn. split; assumption.
Qed.

Lemma code_stage_finish inb in_size out_size action m res :
  nested_call inb in_size out_size action m = Some res ->
  cr_ret res = LZMA_STREAM_END ->
  Z.land (flags (m_coder m)) LZMA_CONCATENATED <> 0 ->
  code_stage inb in_size out_size action m =
  (Return (finish_status (cr_in_pos res) in_size action),
   after_stream_end action res m).
Proof.
  unfold nested_call, code_stage, case_SEQ_CODE, case_SEQ_FINISH,
    call_next_code, after_stream_end, after_code, finish_status.
  unfold_monad. intros H E Hc.
  destruct (code (next (m_coder m))) as [f|]; [|discriminate].
  rewrite H. simp_machine. rewrite E. unfold lzma_ret_eqb.
  destruct (lzma_ret_eq_dec LZMA_STREAM_END LZMA_STREAM_END) as [_|N];
    [|congruence].
  simp_machine.
  destruct (Z.eqb_spec (Z.land (flags (m_coder m)) LZMA_CONCATENATED) 0)
    as [Z0|Z0]; [contradiction|].
  simp_machine.
  destruct (cr_in_pos res <? in_size)%nat; reflexivity.
Qed.

Lemma case_SEQ_INIT_detects inb in_size m b :
  (m_in_pos m < in_size)%nat ->
  nth_error inb (m_in_pos m) = Some b ->
  case_SEQ_INIT inb in_size m = (init_outcome b m, after_init b m).
Proof.
  intros Hlt Hb.
  unfold case_SEQ_INIT, peek, call_stream_decoder_init,
    call_alone_decoder_init, init_outcome, after_init, detected_event,
    detected_status, detected_init.
  unfold_monad.
  apply Nat.ltb_lt in Hlt. rewrite Nat.leb_antisym, Hlt. simp_machine.
  rewrite Hb. simp_machine.
  destruct (Byte.eqb b xfd).
  - destruct (lzma_stream_decoder_init _ _ _ _) as [[r n'] a'].
    simp_machine.
    destruct (lzma_ret_eqb r LZMA_OK); reflexivity.
  - destruct (lzma_alone_decoder_init _ _ _) as [[r n'] a'].
    simp_machine.
    destruct (lzma_ret_eqb r LZMA_OK); simp_machine; [|reflexivity].
    destruct (Z.land (flags (m_coder m)) LZMA_TELL_NO_CHECK =? 0);
      simp_machine; [|reflexivity].
    destruct (Z.land (flags (m_coder m)) LZMA_TELL_ANY_CHECK =? 0);
      reflexivity.
Qed.

Lemma after_init_trace b m :
  m_trace (after_init b m) =
  m_trace m ++ [EvSequence SEQ_CODE; EvPeek (m_in_pos m) b;
                detected_event b m].
Proof.
  unfold after_init. simp_machine.
  repeat rewrite <- app_assoc. reflexivity.
Qed.

(** A call in [SEQ_INIT] that sees a byte: detection, then, unless the
    [SEQ_INIT] case returned, the [SEQ_CODE] case. *)
Lemma auto_decode_SEQ_INIT_detects inb in_size out_size action m b :
  sequence (m_coder m) = SEQ_INIT ->
  (m_in_pos m < in_size)%nat ->
  nth_error inb (m_in_pos m) = Some b ->
  auto_decode inb in_size out_size action m =
  match init_outcome b m with
  | Return r => (Some r, after_init b m)
  | Fault => (None, after_init b m)
  | Next _ =>
      match code_stage inb in_size out_size action (after_init b m) with
      | (Return r, m') => (Some r, m')
      | (_, m') => (None, m')
      end
  end.
Proof.
  intros Hs Hlt Hb.
  unfold auto_decode, auto_decode_body.
  unfold bind at 1. unfold gets at 1. rewrite Hs.
  unfold bind at 1. rewrite (case_SEQ_INIT_detects _ _ _ _ Hlt Hb).
  destruct (init_outcome b m); try reflexivity.
Qed.

Lemma auto_decode_SEQ_CODE inb in_size out_size action m :
  sequence (m_coder m) = SEQ_CODE ->
  auto_decode inb in_size out_size action m =
  match code_stage inb in_size out_size action m with
  | (Return r, m') => (Some r, m')
  | (_, m') => (None, m')
  end.
Proof.
  intros Hs.
  unfold auto_decode, auto_decode_body.
  unfold bind at 1. unfold gets at 1. rewrite Hs.
  reflexivity.
Qed.

(** The [SEQ_CODE] stage ends in one of three ways. *)
Lemma code_stage_cases inb in_size out_size action m :
  (nested_call inb in_size out_size action m = None
   /\ code_stage inb in_size out_size action m = (Fault, m))
  \/ (exists res,
       nested_call inb in_size out_size action m = Some res
       /\ ~ (cr_ret res = LZMA_STREAM_END
             /\ Z.land (flags (m_coder m)) LZMA_CONCATENATED <> 0)
       /\ code_stage inb in_size out_size action m =
          (Return (cr_ret res), after_code action res m))
  \/ (exists res,
       nested_call inb in_size out_size action m = Some res
       /\ cr_ret res = LZMA_STREAM_END
       /\ Z.land (flags (m_coder m)) LZMA_CONCATENATED <> 0
       /\ code_stage inb in_size out_size action m =
          (Return (finish_status (cr_in_pos res) in_size action),
           after_stream_end action res m)).
Proof.
  destruct (nested_call inb in_size out_size action m) as [res|] eqn:Hn.
  - destruct (lzma_ret_eq_dec (cr_ret res) LZMA_STREAM_END) as [E|E].
    + destruct (Z.eq_dec (Z.land (flags (m_coder m)) LZMA_CONCATENATED) 0)
        as [Z0|Z0].
      * right; left. exists res. split; [reflexivity|]. split.
        -- intros [_ H]. contradiction.
        -- apply code_stage_forward; [assumption|].
           intros [_ H]. contradiction.
      * right; right. exists res. repeat split; try assumption.
        apply code_stage_finish; assumption.
    + right; left. exists res. split; [reflexivity|]. split.
      * intros [H _]. contradiction.
      * apply code_stage_forward; [assumption|].
        intros [H _]. contradiction.
  - left. split; [reflexivity|]. apply code_stage_fault. assumption.
Qed.

(* ---------------------------------------------------------------- *)
(** *** The Finish state *)

(** C2. In the Finish state a call with unconsumed input (input cursor
    below the input length) returns [LZMA_DATA_ERROR]; with no unconsumed
    input it returns [LZMA_STREAM_END] when the action is [LZMA_FINISH]
    and [LZMA_OK] when it is any other action, [LZMA_RUN] (Continue) in
    particular.  The call changes nothing and calls nobody. *)
Theorem finish_state_audits_trailing_input inb in_size out_size action m :
  sequence (m_coder m) = SEQ_FINISH ->
  let r := fst (auto_decode inb in_size out_size action m) in
  snd (auto_decode inb in_size out_size action m) = m
  /\ ((m_in_pos m < in_size)%nat -> r = Some LZMA_DATA_ERROR)
  /\ ((in_size <= m_in_pos m)%nat -> action = LZMA_FINISH ->
      r = Some LZMA_STREAM_END)
  /\ ((in_size <= m_in_pos m)%nat -> action = LZMA_RUN ->
      r = Some LZMA_OK)
  /\ ((in_size <= m_in_pos m)%nat -> action <> LZMA_FINISH ->
      r = Some LZMA_OK).
Proof.
  intros Hs. cbv zeta.
  rewrite (auto_decode_SEQ_FINISH _ _ _ _ _ Hs). cbn [fst snd].
  unfold finish_status, lzma_action_eqb.
  split; [reflexivity|].
  split; [|split; [|split]].
  - intros Hlt. apply Nat.ltb_lt in Hlt. rewrite Hlt. reflexivity.
  - intros Hle Ha. apply Nat.ltb_ge in Hle. rewrite Hle. subst action.
    destruct (lzma_action_eq_dec LZMA_FINISH LZMA_FINISH); congruence.
  - intros Hle Ha. apply Nat.ltb_ge in Hle. rewrite Hle. subst action.
    destruct (lzma_action_eq_dec LZMA_RUN LZMA_FINISH);
      [discriminate|reflexivity].
  - intros Hle Ha. apply Nat.ltb_ge in Hle. rewrite Hle.
    destruct (lzma_action_eq_dec action LZMA_FINISH);
      [contradiction|reflexivity].
Qed.

(* ---------------------------------------------------------------- *)
(** *** The Code state *)

(** C3. In the Code state, with the delegate's [code] returning [res]:
    the dispatcher moves to Finish exactly when the delegate's status is
    [LZMA_STREAM_END] and [LZMA_CONCATENATED] is set in the flags; in
    every other case the delegate's status is what the call returns, the
    state stays Code, and the machine is exactly what the delegate
    left. *)
Theorem code_state_forwards_or_finishes
    inb in_size out_size action m res :
  sequence (m_coder m) = SEQ_CODE ->
  nested_call inb in_size out_size action m = Some res ->
  let r := fst (auto_decode inb in_size out_size action m) in
  let m' := snd (auto_decode inb in_size out_size action m) in
  (sequence (m_coder m') = SEQ_FINISH <->
   (cr_ret res = LZMA_STREAM_END
    /\ Z.land (flags (m_coder m)) LZMA_CONCATENATED <> 0))
  /\ (~ (cr_ret res = LZMA_STREAM_END
         /\ Z.land (flags (m_coder m)) LZMA_CONCATENATED <> 0) ->
      r = Some (cr_ret res)
      /\ sequence (m_coder m') = SEQ_CODE
      /\ m' = after_code action res m).
Proof.
  intros Hs Hn. cbv zeta.
  rewrite (auto_decode_SEQ_CODE _ _ _ _ _ Hs).
  destruct (code_stage_cases inb in_size out_size action m)
    as [[Hf _] | [(res' & Hn' & Hno & Heq) | (res' & Hn' & E & Hc & Heq)]].
  - congruence.
  - assert (res' = res) by congruence. subst res'.
    rewrite Heq. cbn [fst snd].
    unfold after_code. simp_machine. rewrite Hs.
    split.
    + split; [discriminate|]. intros H. contradiction.
    + intros _. repeat split; reflexivity.
  - assert (res' = res) by congruence. subst res'.
    rewrite Heq. cbn [fst snd].
    unfold after_stream_end, after_code, log, with_coder. simp_machine.
    split.
    + split; [intros _; split; assumption | reflexivity].
    + intros Hno. exfalso. apply Hno. split; assumption.
Qed.

(* ---------------------------------------------------------------- *)
(** *** What any call does to [sequence] and to the trace *)

Lemma seq_le_refl s : seq_le s s.
Proof. unfold seq_le. lia. Qed.

Lemma seq_le_trans a b c : seq_le a b -> seq_le b c -> seq_le a c.
Proof. unfold seq_le. lia. Qed.

Lemma seq_le_INIT s : seq_le SEQ_INIT s.
Proof. unfold seq_le. cbn [seq_rank]. lia. Qed.

Lemma seq_le_CODE_FINISH : seq_le SEQ_CODE SEQ_FINISH.
Proof. unfold seq_le. cbn [seq_rank]. lia. Qed.

Lemma auto_decode_SEQ_INVALID inb in_size out_size action m n :
  sequence (m_coder m) = SEQ_INVALID n ->
  auto_decode inb in_size out_size action m = (Some LZMA_PROG_ERROR, m).
Proof.
  intros Hs.
  unfold auto_decode, auto_decode_body.
  unfold_monad. rewrite Hs. reflexivity.
Qed.

(** From [SEQ_CODE] on, a call leaves [sequence] where it was or at
    [SEQ_FINISH], and adds no detection event to the trace. *)
Lemma code_stage_step inb in_size out_size action m :
  let m' := snd (code_stage inb in_size out_size action m) in
  (sequence (m_coder m') = sequence (m_coder m)
   \/ sequence (m_coder m') = SEQ_FINISH)
  /\ exists rest,
       m_trace m' = m_trace m ++ rest
       /\ Forall (fun e => is_detection_event e = false) rest.
Proof.
  cbv zeta.
  destruct (code_stage_cases inb in_size out_size action m)
    as [[_ Heq] | [(res & _ & _ & Heq) | (res & _ & _ & _ & Heq)]];
    rewrite Heq; cbn [snd].
  - split; [left; reflexivity|].
    exists []. rewrite app_nil_r. split; [reflexivity|constructor].
  - unfold after_code. simp_machine.
    split; [left; reflexivity|].
    exists [EvCode action (cr_ret res)].
    split; [reflexivity|]. repeat constructor.
  - unfold after_stream_end, after_code, log, with_coder. simp_machine.
    split; [right; reflexivity|].
    exists [EvCode action (cr_ret res); EvSequence SEQ_FINISH].
    split; [rewrite <- app_assoc; reflexivity|]. repeat constructor.
Qed.

Lemma auto_decode_after_detection inb in_size out_size action m :
  sequence (m_coder m) <> SEQ_INIT ->
  let m' := snd (auto_decode inb in_size out_size action m) in
  (sequence (m_coder m') = sequence (m_coder m)
   \/ sequence (m_coder m') = SEQ_FINISH)
  /\ exists rest,
       m_trace m' = m_trace m ++ rest
       /\ Forall (fun e => is_detection_event e = false) rest.
Proof.
  intros Hs. cbv zeta.
  destruct (sequence (m_coder m)) eqn:E; [contradiction| | |].
  - rewrite (auto_decode_SEQ_CODE _ _ _ _ _ E).
    pose proof (code_stage_step inb in_size out_size action m) as H.
    cbv zeta in H. rewrite E in H.
    destruct (code_stage inb in_size out_size action m) as [[u|r|] m1];
      exact H.
  - rewrite (auto_decode_SEQ_FINISH _ _ _ _ _ E). cbn [snd].
    split; [left; assumption|].
    exists []. rewrite app_nil_r. split; [reflexivity|constructor].
  - rewrite (auto_decode_SEQ_INVALID _ _ _ _ _ _ E). cbn [snd].
    split; [left; assumption|].
    exists []. rewrite app_nil_r. split; [reflexivity|constructor].
Qed.

(** One call never moves [sequence] backwards. *)
Lemma auto_decode_monotone inb in_size out_size action m :
  seq_le (sequence (m_coder m))
         (sequence (m_coder (snd (auto_decode inb in_size out_size
                                    action m)))).
Proof.
  destruct (sequence (m_coder m)) eqn:E.
  - apply seq_le_INIT.
  - assert (Hn : sequence (m_coder m) <> SEQ_INIT) by congruence.
    destruct (auto_decode_after_detection inb in_size out_size action m Hn)
      as [[H|H] _]; rewrite H.
    + rewrite E. apply seq_le_refl.
    + apply seq_le_CODE_FINISH.
  - assert (Hn : sequence (m_coder m) <> SEQ_INIT) by congruence.
    destruct (auto_decode_after_detection inb in_size out_size action m Hn)
      as [[H|H] _]; rewrite H.
    + rewrite E. apply seq_le_refl.
    + apply seq_le_refl.
  - rewrite (auto_decode_SEQ_INVALID _ _ _ _ _ _ E). cbn [snd].
    rewrite E. apply seq_le_refl.
Qed.

(* ---------------------------------------------------------------- *)
(** *** The Init state without input *)

(** C6. In the Init state, a call with no unconsumed input returns
    [LZMA_OK] and leaves the machine as it entered it: [sequence] is
    still [SEQ_INIT], both cursors, the output buffer, the nested coder
    and the allocator are unchanged, and the trace of the call is empty
    (no byte was read, no collaborator called, nothing allocated).  The
    same holds for every call of any run of such calls, however long. *)
Theorem init_state_without_input_is_idle ks c a :
  sequence c = SEQ_INIT ->
  Forall (fun k => (a_in_size k <= a_in_pos k)%nat) ks ->
  drive ks c a = map (fun k => (Some LZMA_OK, enter k c a)) ks
  /\ Forall2 (fun k rm =>
               fst rm = Some LZMA_OK
               /\ sequence (m_coder (snd rm)) = SEQ_INIT
               /\ m_coder (snd rm) = c
               /\ m_allocator (snd rm) = a
               /\ m_in_pos (snd rm) = a_in_pos k
               /\ m_out_pos (snd rm) = a_out_pos k
               /\ m_out (snd rm) = a_out k
               /\ m_trace (snd rm) = [])
             ks (drive ks c a).
Proof.
  intros Hs Hall.
  assert (Heq : drive ks c a = map (fun k => (Some LZMA_OK, enter k c a)) ks).
  { induction Hall as [|k ks Hk _ IH]; [reflexivity|].
    cbn [drive map]. unfold advance.
    rewrite auto_decode_SEQ_INIT_no_input; [|exact Hs|exact Hk].
    cbn [enter m_coder m_allocator]. rewrite IH. reflexivity. }
  rewrite Heq. split; [reflexivity|].
  clear Heq Hall. induction ks as [|k ks IH]; cbn [map]; constructor.
  - cbn [fst snd enter m_coder m_allocator m_in_pos m_out_pos m_out
         m_trace].
    repeat split; try reflexivity. exact Hs.
  - exact IH.
Qed.

(* ---------------------------------------------------------------- *)
(** *** Detection *)

Lemma eqb_xfd_false b : b <> xfd -> Byte.eqb b xfd = false.
Proof.
  intros Hb. destruct (Byte.eqb b xfd) eqn:E; [|reflexivity].
  apply Byte.byte_dec_bl in E. contradiction.
Qed.

Lemma not_detection_not_init e :
  is_detection_event e = false -> is_init_event e = false.
Proof.
  unfold is_detection_event. intros H.
  apply orb_false_iff in H. apply H.
Qed.

(** What a detecting call appends to the trace: the store to
    [sequence], the peek, the initializer's call, and then events that
    do not belong to detection. *)
Lemma detecting_call_trace inb in_size out_size action m b :
  sequence (m_coder m) = SEQ_INIT ->
  (m_in_pos m < in_size)%nat ->
  nth_error inb (m_in_pos m) = Some b ->
  exists rest,
    m_trace (snd (auto_decode inb in_size out_size action m)) =
    m_trace m ++ [EvSequence SEQ_CODE; EvPeek (m_in_pos m) b;
                  detected_event b m] ++ rest
    /\ Forall (fun e => is_detection_event e = false) rest
    /\ sequence (m_coder (snd (auto_decode inb in_size out_size
                                 action m))) <> SEQ_INIT
    /\ (detected_status b m <> LZMA_OK ->
        auto_decode inb in_size out_size action m =
        (Some (detected_status b m), after_init b m)
        /\ rest = []).
Proof.
  intros Hs Hlt Hb.
  rewrite (auto_decode_SEQ_INIT_detects _ _ _ _ _ _ Hs Hlt Hb).
  assert (Hret : forall r, init_outcome b m = Return r ->
    exists rest,
      m_trace (after_init b m) =
      m_trace m ++ [EvSequence SEQ_CODE; EvPeek (m_in_pos m) b;
                    detected_event b m] ++ rest
      /\ Forall (fun e => is_detection_event e = false) rest
      /\ sequence (m_coder (after_init b m)) <> SEQ_INIT
      /\ rest = []).
  { intros r _. exists []. rewrite app_nil_r, after_init_trace.
    repeat split; [constructor | discriminate]. }
  destruct (init_outcome b m) as [u|r|] eqn:Ho.
  - pose proof (code_stage_step inb in_size out_size action
                  (after_init b m)) as [Hseq (rest & Ht & Hnd)].
    exists rest.
    assert (Hm : snd (match code_stage inb in_size out_size action
                              (after_init b m) with
                      | (Return r, m') => (Some r, m')
                      | (_, m') => (None, m')
                      end)
                 = snd (code_stage inb in_size out_size action
                          (after_init b m))).
    { destruct (code_stage inb in_size out_size action (after_init b m))
        as [[?|?|] ?]; reflexivity. }
    rewrite Hm. split; [|split; [exact Hnd|split]].
    + rewrite Ht, after_init_trace, <- app_assoc. reflexivity.
    + destruct Hseq as [H|H]; rewrite H; discriminate.
    + intros Hne. exfalso.
      unfold init_outcome in Ho. unfold lzma_ret_eqb in Ho.
      destruct (lzma_ret_eq_dec (detected_status b m) LZMA_OK);
        [contradiction|discriminate].
  - destruct (Hret r eq_refl) as (rest & Ht & Hnd & Hseq & Hnil).
    exists rest. cbn [snd].
    split; [exact Ht|]. split; [exact Hnd|]. split; [exact Hseq|].
    intros Hne. unfold init_outcome, lzma_ret_eqb in Ho.
    destruct (lzma_ret_eq_dec (detected_status b m) LZMA_OK);
      [contradiction|]. cbn [negb] in Ho.
    split; [congruence|exact Hnil].
  - exfalso. unfold init_outcome in Ho.
    repeat match type of Ho with
           | (if ?x then _ else _) = _ => destruct x
           end; discriminate.
Qed.

(** How a detecting call ends, in terms of the machine [after_init b m]
    that the initializer left. *)
Lemma detecting_call_outcome inb in_size out_size action m b :
  sequence (m_coder m) = SEQ_INIT ->
  (m_in_pos m < in_size)%nat ->
  nth_error inb (m_in_pos m) = Some b ->
  (detected_status b m <> LZMA_OK ->
   auto_decode inb in_size out_size action m =
   (Some (detected_status b m), after_init b m))
  /\ (detected_status b m = LZMA_OK ->
      auto_decode inb in_size out_size action m =
      if Byte.eqb b xfd
      then auto_decode inb in_size out_size action (after_init b m)
      else if negb (Z.land (flags (m_coder m)) LZMA_TELL_NO_CHECK =? 0)
      then (Some LZMA_NO_CHECK, after_init b m)
      else if negb (Z.land (flags (m_coder m)) LZMA_TELL_ANY_CHECK =? 0)
      then (Some LZMA_GET_CHECK, after_init b m)
      else auto_decode inb in_size out_size action (after_init b m)).
Proof.
  intros Hs Hlt Hb.
  rewrite (auto_decode_SEQ_INIT_detects _ _ _ _ _ _ Hs Hlt Hb).
  rewrite (auto_decode_SEQ_CODE inb in_size out_size action (after_init b m));
    [|reflexivity].
  unfold init_outcome, lzma_ret_eqb.
  destruct (lzma_ret_eq_dec (detected_status b m) LZMA_OK) as [E|E];
    cbn [negb]; split; intros H; try contradiction; try reflexivity.
  destruct (Byte.eqb b xfd); [reflexivity|].
  destruct (negb (Z.land (flags (m_coder m)) LZMA_TELL_NO_CHECK =? 0));
    [reflexivity|].
  destruct (negb (Z.land (flags (m_coder m)) LZMA_TELL_ANY_CHECK =? 0));
    reflexivity.
Qed.

(** C1. In the Init state with an unconsumed byte [b] at the input
    cursor, wherever in the buffer the cursor stands: if [b] is 0xFD the
    call invokes [lzma_stream_decoder_init] on the nested slot with the
    configured [memlimit] and [flags]; for every other [b] it invokes
    [lzma_alone_decoder_init] with the [memlimit] only.  It is the only
    initializer the call invokes.  What the initializer returned is what
    the dispatcher then holds: the machine [m1] after the initializer has
    the nested slot and the allocator the initializer left, [sequence] at
    [SEQ_CODE], the configuration and the caller's cursors and output
    untouched; a failing initializer's status is returned with the
    machine at [m1], and after a successful one the call goes on from
    [m1] (or returns a check status there, on the LZMA_Alone path). *)
Theorem detection_selects_decoder_by_first_byte
    inb in_size out_size action m b :
  sequence (m_coder m) = SEQ_INIT ->
  (m_in_pos m < in_size)%nat ->
  nth_error inb (m_in_pos m) = Some b ->
  let c := m_coder m in
  let m' := snd (auto_decode inb in_size out_size action m) in
  let m1 := after_init b m in
  (exists rest,
     Forall (fun e => is_init_event e = false) rest
     /\ (b = xfd ->
         m_trace m' =
         m_trace m
         ++ [EvSequence SEQ_CODE; EvPeek (m_in_pos m) b;
             EvStreamInit (memlimit c) (flags c)
               (fst (fst (lzma_stream_decoder_init
                            (next c) (m_allocator m)
                            (memlimit c) (flags c))))]
         ++ rest)
     /\ (b <> xfd ->
         m_trace m' =
         m_trace m
         ++ [EvSequence SEQ_CODE; EvPeek (m_in_pos m) b;
             EvAloneInit (memlimit c)
               (fst (fst (lzma_alone_decoder_init
                            (next c) (m_allocator m) (memlimit c))))]
         ++ rest))
  /\ (sequence (m_coder m1) = SEQ_CODE
      /\ memlimit (m_coder m1) = memlimit c
      /\ flags (m_coder m1) = flags c
      /\ m_in_pos m1 = m_in_pos m
      /\ m_out m1 = m_out m
      /\ m_out_pos m1 = m_out_pos m)
  /\ (b = xfd ->
      let i := lzma_stream_decoder_init (next c) (m_allocator m)
                 (memlimit c) (flags c) in
      next (m_coder m1) = snd (fst i)
      /\ m_allocator m1 = snd i
      /\ m_trace m1 =
         m_trace m ++ [EvSequence SEQ_CODE; EvPeek (m_in_pos m) b;
                       EvStreamInit (memlimit c) (flags c) (fst (fst i))]
      /\ (fst (fst i) <> LZMA_OK ->
          auto_decode inb in_size out_size action m
          = (Some (fst (fst i)), m1))
      /\ (fst (fst i) = LZMA_OK ->
          auto_decode inb in_size out_size action m
          = auto_decode inb in_size out_size action m1))
  /\ (b <> xfd ->
      let i := lzma_alone_decoder_init (next c) (m_allocator m)
                 (memlimit c) in
      next (m_coder m1) = snd (fst i)
      /\ m_allocator m1 = snd i
      /\ m_trace m1 =
         m_trace m ++ [EvSequence SEQ_CODE; EvPeek (m_in_pos m) b;
                       EvAloneInit (memlimit c) (fst (fst i))]
      /\ (fst (fst i) <> LZMA_OK ->
          auto_decode inb in_size out_size action m
          = (Some (fst (fst i)), m1))
      /\ (fst (fst i) = LZMA_OK ->
          auto_decode inb in_size out_size action m
          = if negb (Z.land (flags c) LZMA_TELL_NO_CHECK =? 0)
            then (Some LZMA_NO_CHECK, m1)
            else if negb (Z.land (flags c) LZMA_TELL_ANY_CHECK =? 0)
            then (Some LZMA_GET_CHECK, m1)
            else auto_decode inb in_size out_size action m1)).
Proof.
  intros Hs Hlt Hb. cbv zeta.
  destruct (detecting_call_trace inb in_size out_size action m b
              Hs Hlt Hb) as (rest & Ht & Hnd & _).
  destruct (detecting_call_outcome inb in_size out_size action m b
              Hs Hlt Hb) as [Hfail Hok].
  split; [|split; [|split]].
  - exists rest. split; [|split].
    + eapply Forall_impl; [|exact Hnd].
      intros e He. apply not_detection_not_init. exact He.
    + intros E. rewrite Ht.
      unfold detected_event, detected_status, detected_init.
      subst b. reflexivity.
    + intros E. rewrite Ht.
      unfold detected_event, detected_status, detected_init.
      rewrite (eqb_xfd_false _ E). reflexivity.
  - unfold after_init. simp_machine. repeat split; reflexivity.
  - intros E. cbv zeta.
    assert (Hn : next (m_coder (after_init b m))
                 = snd (fst (detected_init b m))) by reflexivity.
    assert (Ha : m_allocator (after_init b m) = snd (detected_init b m))
      by reflexivity.
    rewrite after_init_trace, Hn, Ha.
    unfold detected_event, detected_status, detected_init in *.
    assert (Hx : Byte.eqb b xfd = true) by (subst b; reflexivity).
    rewrite Hx in *.
    split; [reflexivity|]. split; [reflexivity|]. split; [reflexivity|].
    split; [exact Hfail|exact Hok].
  - intros E. cbv zeta.
    assert (Hn : next (m_coder (after_init b m))
                 = snd (fst (detected_init b m))) by reflexivity.
    assert (Ha : m_allocator (after_init b m) = snd (detected_init b m))
      by reflexivity.
    rewrite after_init_trace, Hn, Ha.
    unfold detected_event, detected_status, detected_init in *.
    rewrite (eqb_xfd_false _ E) in *.
    split; [reflexivity|]. split; [reflexivity|]. split; [reflexivity|].
    split; [exact Hfail|exact Hok].
Qed.

Lemma detected_event_is_init b m :
  is_init_event (detected_event b m) = true
  /\ init_status (detected_event b m) = Some (detected_status b m).
Proof.
  unfold detected_event, is_init_event.
  destruct (Byte.eqb b xfd); split; reflexivity.
Qed.

(** Once [sequence] has left [SEQ_INIT], no call of any later run reads
    a byte for detection or calls an initializer, and [sequence] does
    not come back to [SEQ_INIT]. *)
Lemma drive_after_detection ks :
  forall c a,
    sequence c <> SEQ_INIT ->
    Forall (fun rm =>
              sequence (m_coder (snd rm)) <> SEQ_INIT
              /\ Forall (fun e => is_detection_event e = false)
                        (m_trace (snd rm)))
           (drive ks c a).
Proof.
  induction ks as [|k ks IH]; intros c a Hs; cbn [drive]; [constructor|].
  pose proof (auto_decode_after_detection (a_in k) (a_in_size k)
                (a_out_size k) (a_action k) (enter k c a) Hs) as H.
  cbv zeta in H. fold (advance k c a) in H.
  destruct (advance k c a) as [r m1]. cbn [snd] in H.
  destruct H as [Hseq (rest & Ht & Hnd)].
  cbn [enter m_trace m_coder app] in Ht, Hseq.
  assert (Hs1 : sequence (m_coder m1) <> SEQ_INIT).
  { destruct Hseq as [E|E]; rewrite E; [exact Hs|discriminate]. }
  constructor.
  - cbn [snd]. split; [exact Hs1|]. rewrite Ht. exact Hnd.
  - destruct r; [apply IH; exact Hs1 | constructor].
Qed.

(** C7. In an Init-state call that sees an input byte, the store
    [coder->sequence = SEQ_CODE] is the first thing the call does: it
    precedes the peek at the byte and the one initializer call [e].  So
    if the initializer fails, the call returns its status with
    [sequence] already at [SEQ_CODE]; and whatever the call returned,
    [sequence] is not [SEQ_INIT] afterwards and no later call on the
    dispatcher runs detection again. *)
Theorem sequence_is_code_before_initializer
    inb in_size out_size action m b :
  sequence (m_coder m) = SEQ_INIT ->
  (m_in_pos m < in_size)%nat ->
  nth_error inb (m_in_pos m) = Some b ->
  let r := fst (auto_decode inb in_size out_size action m) in
  let m' := snd (auto_decode inb in_size out_size action m) in
  exists e rest,
    is_init_event e = true
    /\ m_trace m' =
       m_trace m ++ [EvSequence SEQ_CODE; EvPeek (m_in_pos m) b; e] ++ rest
    /\ Forall (fun e' => is_detection_event e' = false) rest
    /\ sequence (m_coder m') <> SEQ_INIT
    /\ (init_status e <> Some LZMA_OK ->
        r = init_status e
        /\ sequence (m_coder m') = SEQ_CODE
        /\ rest = [])
    /\ (forall ks,
          Forall (fun rm =>
                    sequence (m_coder (snd rm)) <> SEQ_INIT
                    /\ Forall (fun e' => is_detection_event e' = false)
                              (m_trace (snd rm)))
                 (drive ks (m_coder m') (m_allocator m'))).
Proof.
  intros Hs Hlt Hb. cbv zeta.
  destruct (detecting_call_trace inb in_size out_size action m b
              Hs Hlt Hb) as (rest & Ht & Hnd & Hseq & Hfail).
  destruct (detected_event_is_init b m) as [Hi Hst].
  exists (detected_event b m), rest.
  split; [exact Hi|]. split; [exact Ht|]. split; [exact Hnd|].
  split; [exact Hseq|]. split.
  - intros Hne. rewrite Hst in Hne.
    assert (Hne' : detected_status b m <> LZMA_OK) by congruence.
    destruct (Hfail Hne') as [Heq Hnil].
    rewrite Heq, Hst. cbn [fst snd].
    split; [reflexivity|]. split; [reflexivity|exact Hnil].
  - intros ks. apply drive_after_detection. exact Hseq.
Qed.

(* ---------------------------------------------------------------- *)
(** *** Monotonicity *)

(** C9. Over any run of calls on a dispatcher, the successive values of
    [sequence] (the one before the first call, then the one each call
    leaves) are ordered by Init, Code, Finish: every value is at or
    after every earlier one, so no call moves [sequence] from Code back
    to Init, or from Finish back to Code or Init. *)
Theorem sequence_only_moves_forward ks c a :
  StronglySorted seq_le
    (sequence c
     :: map (fun rm => sequence (m_coder (snd rm))) (drive ks c a)).
Proof.
  apply Sorted_StronglySorted.
  { intros x y z. apply seq_le_trans. }
  revert c a. induction ks as [|k ks IH]; intros c a.
  - cbn [drive map]. repeat constructor.
  - cbn [drive].
    pose proof (auto_decode_monotone (a_in k) (a_in_size k)
                  (a_out_size k) (a_action k) (enter k c a)) as Hmono.
    fold (advance k c a) in Hmono.
    destruct (advance k c a) as [r m1]. cbn [snd enter m_coder] in Hmono.
    cbn [map snd]. constructor.
    + destruct r.
      * apply IH.
      * cbn [map]. repeat constructor.
    + constructor. exact Hmono.
Qed.

(* ---------------------------------------------------------------- *)
(** *** The check-reporting statuses of the LZMA_Alone path *)

(** With a first byte other than 0xFD, [LZMA_TELL_NO_CHECK] set and an
    initializer that succeeds, the call ends in the [SEQ_INIT] case. *)
Lemma legacy_detection_tells_no_check inb in_size out_size action m b :
  sequence (m_coder m) = SEQ_INIT ->
  (m_in_pos m < in_size)%nat ->
  nth_error inb (m_in_pos m) = Some b ->
  b <> xfd ->
  Z.land (flags (m_coder m)) LZMA_TELL_NO_CHECK <> 0 ->
  fst (fst (lzma_alone_decoder_init (next (m_coder m)) (m_allocator m)
              (memlimit (m_coder m)))) = LZMA_OK ->
  auto_decode inb in_size out_size action m =
  (Some LZMA_NO_CHECK, after_init b m)
  /\ m_trace (after_init b m) =
     m_trace m ++ [EvSequence SEQ_CODE; EvPeek (m_in_pos m) b;
                   EvAloneInit (memlimit (m_coder m)) LZMA_OK].
Proof.
  intros Hs Hlt Hb Hne Hflag Hok.
  rewrite (auto_decode_SEQ_INIT_detects _ _ _ _ _ _ Hs Hlt Hb).
  rewrite after_init_trace.
  unfold init_outcome, detected_event, detected_status, detected_init.
  rewrite (eqb_xfd_false _ Hne), Hok.
  apply Z.eqb_neq in Hflag. rewrite Hflag.
  split; reflexivity.
Qed.

(** C8 (amended). When detection selects the LZMA_Alone decoder (first
    byte other than 0xFD), [LZMA_TELL_NO_CHECK] is set and
    [lzma_alone_decoder_init] returns [LZMA_OK], that same call returns
    [LZMA_NO_CHECK]: the nested coder's [code] is not called, the output
    buffer and both cursors are as the caller passed them, whatever the
    room in the output buffer, and [sequence] is [SEQ_CODE]. *)
Theorem legacy_no_check_reported_at_detection
    inb in_size out_size action m b :
  sequence (m_coder m) = SEQ_INIT ->
  (m_in_pos m < in_size)%nat ->
  nth_error inb (m_in_pos m) = Some b ->
  b <> xfd ->
  Z.land (flags (m_coder m)) LZMA_TELL_NO_CHECK <> 0 ->
  fst (fst (lzma_alone_decoder_init (next (m_coder m)) (m_allocator m)
              (memlimit (m_coder m)))) = LZMA_OK ->
  let r := fst (auto_decode inb in_size out_size action m) in
  let m' := snd (auto_decode inb in_size out_size action m) in
  r = Some LZMA_NO_CHECK
  /\ m_out m' = m_out m
  /\ m_out_pos m' = m_out_pos m
  /\ m_in_pos m' = m_in_pos m
  /\ sequence (m_coder m') = SEQ_CODE
  /\ m_trace m' =
     m_trace m ++ [EvSequence SEQ_CODE; EvPeek (m_in_pos m) b;
                   EvAloneInit (memlimit (m_coder m)) LZMA_OK]
  /\ Forall (fun e => is_code_event e = false)
            [EvSequence SEQ_CODE; EvPeek (m_in_pos m) b;
             EvAloneInit (memlimit (m_coder m)) LZMA_OK].
Proof.
  intros Hs Hlt Hb Hne Hflag Hok. cbv zeta.
  destruct (legacy_detection_tells_no_check inb in_size out_size action
              m b Hs Hlt Hb Hne Hflag Hok) as [Heq Ht].
  rewrite Heq. cbn [fst snd]. rewrite Ht.
  unfold after_init. simp_machine.
  repeat split; repeat constructor.
Qed.

(** C10 (amended). When detection selects the LZMA_Alone decoder, both
    [LZMA_TELL_NO_CHECK] and [LZMA_TELL_ANY_CHECK] are set and
    [lzma_alone_decoder_init] returns [LZMA_OK], the detection call
    returns [LZMA_NO_CHECK], not [LZMA_GET_CHECK]: the test of
    [LZMA_TELL_NO_CHECK] comes first. *)
Theorem legacy_no_check_has_priority inb in_size out_size action m b :
  sequence (m_coder m) = SEQ_INIT ->
  (m_in_pos m < in_size)%nat ->
  nth_error inb (m_in_pos m) = Some b ->
  b <> xfd ->
  Z.land (flags (m_coder m)) LZMA_TELL_NO_CHECK <> 0 ->
  Z.land (flags (m_coder m)) LZMA_TELL_ANY_CHECK <> 0 ->
  fst (fst (lzma_alone_decoder_init (next (m_coder m)) (m_allocator m)
              (memlimit (m_coder m)))) = LZMA_OK ->
  fst (auto_decode inb in_size out_size action m) = Some LZMA_NO_CHECK
  /\ fst (auto_decode inb in_size out_size action m)
     <> Some LZMA_GET_CHECK.
Proof.
  intros Hs Hlt Hb Hne Hno _ Hok.
  destruct (legacy_detection_tells_no_check inb in_size out_size action
              m b Hs Hlt Hb Hne Hno Hok) as [Heq _].
  rewrite Heq. cbn [fst]. split; [reflexivity|discriminate].
Qed.

(* ---------------------------------------------------------------- *)
(** *** Stream end and the caller's action *)

Lemma finish_status_stream_end pos in_size action :
  finish_status pos in_size action = LZMA_STREAM_END ->
  action = LZMA_FINISH.
Proof.
  unfold finish_status, lzma_action_eqb.
  destruct (pos <? in_size)%nat; [discriminate|].
  destruct (lzma_action_eq_dec action LZMA_FINISH);
    [intros _; assumption | discriminate].
Qed.

Lemma code_stage_stream_end inb in_size out_size action m m' :
  Z.land (flags (m_coder m)) LZMA_CONCATENATED <> 0 ->
  code_stage inb in_size out_size action m = (Return LZMA_STREAM_END, m') ->
  action = LZMA_FINISH.
Proof.
  intros Hc Heq.
  destruct (code_stage_cases inb in_size out_size action m)
    as [[_ H] | [(res & _ & Hno & H) | (res & _ & _ & _ & H)]];
    rewrite H in Heq.
  - discriminate.
  - exfalso. apply Hno. split; [congruence|exact Hc].
  - apply (finish_status_stream_end (cr_in_pos res) in_size). congruence.
Qed.

Lemma auto_decode_SEQ_INIT_overrun inb in_size out_size action m :
  sequence (m_coder m) = SEQ_INIT ->
  (m_in_pos m < in_size)%nat ->
  nth_error inb (m_in_pos m) = None ->
  fst (auto_decode inb in_size out_size action m) = None.
Proof.
  intros Hs Hlt Hb.
  unfold auto_decode, auto_decode_body, case_SEQ_INIT, peek.
  unfold_monad. rewrite Hs.
  apply Nat.ltb_lt in Hlt. rewrite Nat.leb_antisym, Hlt. simp_machine.
  rewrite Hb. reflexivity.
Qed.

(** C4 (amended). On a dispatcher with [LZMA_CONCATENATED] set, a call
    in which no initializer itself reported [LZMA_STREAM_END] returns
    [LZMA_STREAM_END] only when the caller's action is [LZMA_FINISH]. *)
Theorem stream_end_needs_finish_when_concatenated k c a :
  Z.land (flags c) LZMA_CONCATENATED <> 0 ->
  (forall e, In e (m_trace (snd (advance k c a))) ->
             init_status e <> Some LZMA_STREAM_END) ->
  fst (advance k c a) = Some LZMA_STREAM_END ->
  a_action k = LZMA_FINISH.
Proof.
  unfold advance. intros Hc Hinit Hr.
  set (m := enter k c a) in *.
  assert (Hcm : Z.land (flags (m_coder m)) LZMA_CONCATENATED <> 0)
    by exact Hc.
  assert (Hcode : forall m0 x,
    Z.land (flags (m_coder m0)) LZMA_CONCATENATED <> 0 ->
    fst (match code_stage (a_in k) (a_in_size k) (a_out_size k)
                 (a_action k) m0 with
         | (Return r, m') => (Some r, m')
         | (_, m') => (x, m')
         end) = Some LZMA_STREAM_END ->
    x = None ->
    a_action k = LZMA_FINISH).
  { intros m0 x H0 H1 Hx. subst x.
    destruct (code_stage (a_in k) (a_in_size k) (a_out_size k)
                (a_action k) m0) as [[u|r|] m1] eqn:E;
      cbn [fst] in H1; try discriminate.
    apply (code_stage_stream_end (a_in k) (a_in_size k) (a_out_size k)
             (a_action k) m0 m1 H0).
    rewrite E. congruence. }
  destruct (sequence (m_coder m)) eqn:Hs.
  - destruct (Nat.le_gt_cases (a_in_size k) (m_in_pos m)) as [Hle|Hlt].
    + rewrite (auto_decode_SEQ_INIT_no_input _ _ _ _ _ Hs Hle) in Hr.
      discriminate.
    + destruct (nth_error (a_in k) (m_in_pos m)) as [b|] eqn:Hb.
      * assert (Hev : In (detected_event b m)
                        (m_trace (snd (auto_decode (a_in k) (a_in_size k)
                                         (a_out_size k) (a_action k) m)))).
        { destruct (detecting_call_trace (a_in k) (a_in_size k)
                      (a_out_size k) (a_action k) m b Hs Hlt Hb)
            as (rest & Ht & _).
          rewrite Ht. apply in_or_app. right.
          cbn [app]. right. right. left. reflexivity. }
        apply Hinit in Hev.
        rewrite (proj2 (detected_event_is_init b m)) in Hev.
        rewrite (auto_decode_SEQ_INIT_detects _ _ _ _ _ _ Hs Hlt Hb) in Hr.
        destruct (init_outcome b m) as [u|r|] eqn:Ho.
        -- apply (Hcode (after_init b m) None); [exact Hc|exact Hr|reflexivity].
        -- cbn [fst] in Hr. exfalso.
           unfold init_outcome in Ho.
           repeat match type of Ho with
                  | (if ?x then _ else _) = _ => destruct x
                  end; congruence.
        -- discriminate.
      * rewrite (auto_decode_SEQ_INIT_overrun _ _ _ _ _ Hs Hlt Hb) in Hr.
        discriminate.
  - rewrite (auto_decode_SEQ_CODE _ _ _ _ _ Hs) in Hr.
    apply (Hcode m None); [exact Hcm|exact Hr|reflexivity].
  - rewrite (auto_decode_SEQ_FINISH _ _ _ _ _ Hs) in Hr. cbn [fst] in Hr.
    apply (finish_status_stream_end (m_in_pos m) (a_in_size k)).
    congruence.
  - rewrite (auto_decode_SEQ_INVALID _ _ _ _ _ _ Hs) in Hr. discriminate.
Qed.

(* ---------------------------------------------------------------- *)
(** *** Configuration *)

Lemma lzma_next_coder_init_same (C : Type) (n : lzma_next_coder allocator C)
    (a : allocator) :
  lzma_next_coder_init (init n) n a = (n, a).
Proof.
  unfold lzma_next_coder_init. rewrite Z.eqb_refl.
  destruct n; reflexivity.
Qed.

(** C5. A call of [auto_decoder_init] whose [flags] have a bit outside
    [LZMA_SUPPORTED_FLAGS] returns [LZMA_OPTIONS_ERROR] without calling
    [lzma_alloc]; and when the handle is one that [auto_decoder_init]
    had set up before, the handle (with the dispatcher it points to: its
    nested coder, [memlimit], [flags] and [sequence]) and the allocator
    are exactly as they were. *)
Theorem unsupported_flags_rejected_before_allocation n a memlimit_ flags_ :
  Z.land flags_ (lnot32 LZMA_SUPPORTED_FLAGS) <> 0 ->
  let r := auto_decoder_init n a memlimit_ flags_ in
  ir_ret r = LZMA_OPTIONS_ERROR
  /\ ir_trace r = []
  /\ Forall (fun e => is_alloc_event e = false) (ir_trace r)
  /\ (init n = auto_decoder_init_addr ->
      ir_next r = n /\ ir_allocator r = a).
Proof.
  intros Hbad. cbv zeta.
  unfold auto_decoder_init.
  destruct (lzma_next_coder_init auto_decoder_init_addr n a)
    as [n1 a1] eqn:Hn.
  apply Z.eqb_neq in Hbad. rewrite Hbad. cbn [negb].
  cbn [ir_ret ir_trace ir_next ir_allocator].
  split; [reflexivity|]. split; [reflexivity|]. split; [constructor|].
  intros Hown. rewrite <- Hown, lzma_next_coder_init_same in Hn.
  split; congruence.
Qed.

End Properties.

(* ------------------------------------------------------------------ *)
(** ** The theorems at work on the concrete collaborators *)

Module Runs.

Import Fixture.
#[local] Existing Instance stored.

(** The magic byte buried at offset 1 of a four-byte buffer; an
    LZMA_Alone first byte; and an LZMA_Alone first byte with an exhausted
    allocator. *)
Lemma detection_selects_decoder_by_first_byte_run :
  (let inb := [x00; xfd; x41; x42] in
   let m := enter (L := stored) (window inb 1 8 LZMA_RUN) (fresh 0) 1%nat in
   let m1 := after_init xfd m in
   sequence (m_coder m) = SEQ_INIT
   /\ (m_in_pos m < 4)%nat
   /\ nth_error inb (m_in_pos m) = Some xfd
   /\ next (m_coder m1) = snd (fst (stored_init 0x2000 3 (next (fresh 0)) 1))
   /\ m_allocator m1 = 0%nat
   /\ m_trace m1 = [] ++ [EvSequence SEQ_CODE; EvPeek 1 xfd;
                          EvStreamInit 65536 0 LZMA_OK]
   /\ auto_decode inb 4 8 LZMA_RUN m = auto_decode inb 4 8 LZMA_RUN m1)
  /\ (let inb := [x5d; x41] in
      let m := enter (L := stored) (window inb 0 8 LZMA_RUN) (fresh 0)
                 1%nat in
      let m1 := after_init x5d m in
      sequence (m_coder m) = SEQ_INIT
      /\ nth_error inb (m_in_pos m) = Some x5d
      /\ x5d <> xfd
      /\ next (m_coder m1)
         = snd (fst (stored_init 0x3000 2 (next (fresh 0)) 1))
      /\ m_allocator m1 = 0%nat
      /\ m_trace m1 = [] ++ [EvSequence SEQ_CODE; EvPeek 0 x5d;
                             EvAloneInit 65536 LZMA_OK]
      /\ auto_decode inb 2 8 LZMA_RUN m = auto_decode inb 2 8 LZMA_RUN m1)
  /\ (let inb := [x5d; x41] in
      let m := enter (L := stored) (window inb 0 8 LZMA_RUN) (fresh 0)
                 0%nat in
      let m1 := after_init x5d m in
      sequence (m_coder m) = SEQ_INIT
      /\ nth_error inb (m_in_pos m) = Some x5d
      /\ x5d <> xfd
      /\ sequence (m_coder m1) = SEQ_CODE
      /\ auto_decode inb 2 8 LZMA_RUN m = (Some LZMA_MEM_ERROR, m1)).
Proof.
  cbv zeta.
  assert (Hne : x5d <> xfd) by discriminate.
  assert (Hlt14 : (1 < 4)%nat) by lia.
  split; [|split].
  - destruct (detection_selects_decoder_by_first_byte (L := stored)
                [x00; xfd; x41; x42] 4%nat 8%nat LZMA_RUN
                (enter (L := stored)
                   (window [x00; xfd; x41; x42] 1 8 LZMA_RUN)
                   (fresh 0) 1%nat) xfd
                eq_refl Hlt14
                eq_refl)
      as (_ & _ & Hfd & _).
    destruct (Hfd eq_refl) as (Hn & Ha & Ht & _ & Hok).
    split; [reflexivity|]. split; [cbn; lia|]. split; [reflexivity|].
    split; [exact Hn|]. split; [exact Ha|]. split; [exact Ht|].
    exact (Hok eq_refl).
  - destruct (detection_selects_decoder_by_first_byte (L := stored)
                [x5d; x41] 2%nat 8%nat LZMA_RUN
                (enter (L := stored) (window [x5d; x41] 0 8 LZMA_RUN)
                   (fresh 0) 1%nat) x5d
                eq_refl (Nat.lt_0_succ 1) eq_refl)
      as (_ & _ & _ & Hal).
    destruct (Hal Hne) as (Hn & Ha & Ht & _ & Hok).
    split; [reflexivity|]. split; [reflexivity|]. split; [exact Hne|].
    split; [exact Hn|]. split; [exact Ha|]. split; [exact Ht|].
    exact (Hok eq_refl).
  - destruct (detection_selects_decoder_by_first_byte (L := stored)
                [x5d; x41] 2%nat 8%nat LZMA_RUN
                (enter (L := stored) (window [x5d; x41] 0 8 LZMA_RUN)
                   (fresh 0) 0%nat) x5d
                eq_refl (Nat.lt_0_succ 1) eq_refl)
      as (_ & (Hs & _) & _ & Hal).
    destruct (Hal Hne) as (_ & _ & _ & Hfail & _).
    split; [reflexivity|]. split; [reflexivity|]. split; [exact Hne|].
    split; [exact Hs|].
    apply Hfail. discriminate.
Defined.

(** One stray byte after the stream, in the Finish state. *)
Lemma finish_state_audits_trailing_input_run :
  let inb := [x5d; x41; x2a] in
  let m := enter (L := stored) (window inb 2 8 LZMA_FINISH)
             (running 8 0 SEQ_FINISH) 0%nat in
  sequence (m_coder m) = SEQ_FINISH
  /\ (m_in_pos m < 3)%nat
  /\ fst (auto_decode inb 3 8 LZMA_FINISH m) = Some LZMA_DATA_ERROR.
Proof.
  cbv zeta.
  split; [reflexivity|]. split; [cbn; lia|].
  apply (finish_state_audits_trailing_input (L := stored)
           [x5d; x41; x2a] 3%nat 8%nat LZMA_FINISH
           (enter (L := stored) (window [x5d; x41; x2a] 2 8 LZMA_FINISH)
              (running 8 0 SEQ_FINISH) 0%nat) eq_refl).
  cbn; lia.
Defined.

(** The stored decoder reaches its end with [LZMA_CONCATENATED] set. *)
Lemma code_state_forwards_or_finishes_run :
  let inb := [x41; x42] in
  let m := enter (L := stored) (window inb 0 8 LZMA_RUN)
             (running 8 2 SEQ_CODE) 0%nat in
  sequence (m_coder m) = SEQ_CODE
  /\ exists res,
       nested_call inb 2 8 LZMA_RUN m = Some res
       /\ cr_ret res = LZMA_STREAM_END
       /\ (sequence (m_coder (snd (auto_decode inb 2 8 LZMA_RUN m)))
           = SEQ_FINISH <->
           (cr_ret res = LZMA_STREAM_END
            /\ Z.land (flags (m_coder m)) LZMA_CONCATENATED <> 0)).
Proof.
  cbv zeta. split; [reflexivity|].
  eexists. split; [vm_compute; reflexivity|]. split; [reflexivity|].
  refine (proj1 (code_state_forwards_or_finishes (L := stored)
                   [x41; x42] 2%nat 8%nat LZMA_RUN
                   (enter (L := stored) (window [x41; x42] 0 8 LZMA_RUN)
                      (running 8 2 SEQ_CODE) 0%nat) _ eq_refl _)).
  vm_compute; reflexivity.
Defined.

(** Three polls before any byte has arrived. *)
Lemma init_state_without_input_is_idle_run :
  let ks := [window [] 0 8 LZMA_RUN; window [x5d] 1 0 LZMA_RUN;
             window [] 0 8 LZMA_RUN] in
  sequence (fresh 0) = SEQ_INIT
  /\ Forall (fun k => (a_in_size k <= a_in_pos k)%nat) ks
  /\ drive (L := stored) ks (fresh 0) 1%nat =
     map (fun k => (Some LZMA_OK, enter k (fresh 0) 1%nat)) ks.
Proof.
  cbv zeta. split; [reflexivity|].
  assert (H : Forall (fun k => (a_in_size k <= a_in_pos k)%nat)
                [window [] 0 8 LZMA_RUN; window [x5d] 1 0 LZMA_RUN;
                 window [] 0 8 LZMA_RUN]).
  { repeat constructor. }
  split; [exact H|].
  exact (proj1 (init_state_without_input_is_idle (L := stored)
                  _ (fresh 0) 1%nat eq_refl H)).
Defined.

(** Detection with an exhausted allocator: the initializer fails. *)
Lemma sequence_is_code_before_initializer_run :
  let inb := [x5d; x41] in
  let m := enter (L := stored) (window inb 0 8 LZMA_RUN) (fresh 0) 0%nat in
  sequence (m_coder m) = SEQ_INIT
  /\ (m_in_pos m < 2)%nat
  /\ nth_error inb (m_in_pos m) = Some x5d
  /\ fst (auto_decode inb 2 8 LZMA_RUN m) = Some LZMA_MEM_ERROR
  /\ exists e rest,
       is_init_event e = true
       /\ m_trace (snd (auto_decode inb 2 8 LZMA_RUN m)) =
          [] ++ [EvSequence SEQ_CODE; EvPeek 0 x5d; e] ++ rest
       /\ sequence (m_coder (snd (auto_decode inb 2 8 LZMA_RUN m)))
          <> SEQ_INIT.
Proof.
  cbv zeta.
  split; [reflexivity|]. split; [cbn; lia|]. split; [reflexivity|].
  split; [vm_compute; reflexivity|].
  destruct (sequence_is_code_before_initializer (L := stored)
              [x5d; x41] 2%nat 8%nat LZMA_RUN
              (enter (L := stored) (window [x5d; x41] 0 8 LZMA_RUN)
                 (fresh 0) 0%nat) x5d eq_refl
              (Nat.lt_0_succ 1) eq_refl)
    as (e & rest & Hi & Ht & _ & Hs & _).
  exists e, rest. split; [exact Hi|]. split; [exact Ht|exact Hs].
Defined.

(** A whole LZMA_Alone stream in one finishing call, with
    [LZMA_CONCATENATED] set. *)
Lemma stream_end_needs_finish_when_concatenated_run :
  let k := window [x5d; x41] 0 8 LZMA_FINISH in
  Z.land (flags (fresh 8)) LZMA_CONCATENATED <> 0
  /\ (forall e, In e (m_trace (snd (advance k (fresh 8) 1%nat))) ->
                init_status e <> Some LZMA_STREAM_END)
  /\ fst (advance k (fresh 8) 1%nat) = Some LZMA_STREAM_END
  /\ a_action k = LZMA_FINISH.
Proof.
  cbv zeta.
  assert (H1 : Z.land (flags (fresh 8)) LZMA_CONCATENATED <> 0).
  { vm_compute. discriminate. }
  assert (H2 : forall e,
             In e (m_trace (snd (advance (window [x5d; x41] 0 8 LZMA_FINISH)
                                   (fresh 8) 1%nat))) ->
             init_status e <> Some LZMA_STREAM_END).
  { intros e He. vm_compute in He.
    repeat (destruct He as [He|He]; [subst e; discriminate|]).
    destruct He. }
  assert (H3 : fst (advance (window [x5d; x41] 0 8 LZMA_FINISH)
                      (fresh 8) 1%nat) = Some LZMA_STREAM_END).
  { vm_compute. reflexivity. }
  split; [exact H1|]. split; [exact H2|]. split; [exact H3|].
  exact (stream_end_needs_finish_when_concatenated (L := stored)
           (window [x5d; x41] 0 8 LZMA_FINISH) (fresh 8) 1%nat H1 H2 H3).
Defined.

(** Re-configuring a dispatcher in mid-stream with an unknown flag. *)
Lemma unsupported_flags_rejected_before_allocation_run :
  let n := handle (running 8 1 SEQ_CODE) in
  let r := auto_decoder_init n 3%nat 0 0x10 in
  Z.land 0x10 (lnot32 LZMA_SUPPORTED_FLAGS) <> 0
  /\ init n = auto_decoder_init_addr
  /\ ir_ret r = LZMA_OPTIONS_ERROR
  /\ ir_trace r = []
  /\ ir_next r = n
  /\ ir_allocator r = 3%nat.
Proof.
  cbv zeta.
  assert (H1 : Z.land 0x10 (lnot32 LZMA_SUPPORTED_FLAGS) <> 0).
  { vm_compute. discriminate. }
  split; [exact H1|]. split; [reflexivity|].
  destruct (unsupported_flags_rejected_before_allocation (L := stored)
              (handle (running 8 1 SEQ_CODE)) 3%nat 0 0x10 H1)
    as (Hr & Ht & _ & Hsame).
  split; [exact Hr|]. split; [exact Ht|].
  exact (Hsame eq_refl).
Defined.

(** An LZMA_Alone first byte, [LZMA_TELL_NO_CHECK] set, and no room at
    all in the output buffer. *)
Lemma legacy_no_check_reported_at_detection_run :
  let inb := [x5d; x41] in
  let m := enter (window inb 0 0 LZMA_RUN) (fresh 1) 1%nat in
  sequence (m_coder m) = SEQ_INIT
  /\ (m_in_pos m < 2)%nat
  /\ nth_error inb (m_in_pos m) = Some x5d
  /\ x5d <> xfd
  /\ Z.land (flags (m_coder m)) LZMA_TELL_NO_CHECK <> 0
  /\ fst (fst (lzma_alone_decoder_init (next (m_coder m)) (m_allocator m)
                 (memlimit (m_coder m)))) = LZMA_OK
  /\ fst (auto_decode inb 2 0 LZMA_RUN m) = Some LZMA_NO_CHECK
  /\ m_out_pos (snd (auto_decode inb 2 0 LZMA_RUN m)) = 0%nat
  /\ m_out (snd (auto_decode inb 2 0 LZMA_RUN m)) = [].
Proof.
  cbv zeta.
  assert (Hne : x5d <> xfd) by discriminate.
  assert (Hf : Z.land (flags (fresh 1)) LZMA_TELL_NO_CHECK <> 0).
  { vm_compute. discriminate. }
  split; [reflexivity|]. split; [cbn; lia|]. split; [reflexivity|].
  split; [exact Hne|]. split; [exact Hf|]. split; [reflexivity|].
  destruct (legacy_no_check_reported_at_detection (L := stored)
              [x5d; x41] 2%nat 0%nat LZMA_RUN
              (enter (window [x5d; x41] 0 0 LZMA_RUN) (fresh 1) 1%nat)
              x5d eq_refl (Nat.lt_0_succ 1) eq_refl Hne Hf eq_refl)
    as (Hr & Ho & Hp & _).
  split; [exact Hr|]. split; [exact Hp|exact Ho].
Defined.

(** Both check-reporting flags set. *)
Lemma legacy_no_check_has_priority_run :
  let inb := [x5d; x41] in
  let m := enter (window inb 0 8 LZMA_RUN) (fresh 5) 1%nat in
  sequence (m_coder m) = SEQ_INIT
  /\ (m_in_pos m < 2)%nat
  /\ nth_error inb (m_in_pos m) = Some x5d
  /\ x5d <> xfd
  /\ Z.land (flags (m_coder m)) LZMA_TELL_NO_CHECK <> 0
  /\ Z.land (flags (m_coder m)) LZMA_TELL_ANY_CHECK <> 0
  /\ fst (fst (lzma_alone_decoder_init (next (m_coder m)) (m_allocator m)
                 (memlimit (m_coder m)))) = LZMA_OK
  /\ fst (auto_decode inb 2 8 LZMA_RUN m) = Some LZMA_NO_CHECK
  /\ fst (auto_decode inb 2 8 LZMA_RUN m) <> Some LZMA_GET_CHECK.
Proof.
  cbv zeta.
  assert (Hne : x5d <> xfd) by discriminate.
  assert (Hf : Z.land (flags (fresh 5)) LZMA_TELL_NO_CHECK <> 0).
  { vm_compute. discriminate. }
  assert (Hg : Z.land (flags (fresh 5)) LZMA_TELL_ANY_CHECK <> 0).
  { vm_compute. discriminate. }
  split; [reflexivity|]. split; [cbn; lia|]. split; [reflexivity|].
  split; [exact Hne|]. split; [exact Hf|]. split; [exact Hg|].
  split; [reflexivity|].
  exact (legacy_no_check_has_priority (L := stored)
           [x5d; x41] 2%nat 8%nat LZMA_RUN
           (enter (window [x5d; x41] 0 8 LZMA_RUN) (fresh 5) 1%nat)
           x5d eq_refl (Nat.lt_0_succ 1) eq_refl Hne Hf Hg eq_refl).
Defined.

(** *** Counterexamples to the unrestricted statements *)

(** C4 without its restriction fails: without [LZMA_CONCATENATED] the nested
    decoder's [LZMA_STREAM_END] is returned as it is, here on a call
    whose action is [LZMA_RUN]. *)
Lemma stream_end_returned_on_run :
  let k := window [x5d; x41; x42] 0 8 LZMA_RUN in
  a_action k = LZMA_RUN
  /\ a_action k <> LZMA_FINISH
  /\ fst (advance k (fresh 0) 1%nat) = Some LZMA_STREAM_END
  /\ ~ (forall (L : liblzma) (k : call) (c : lzma_coder) (a : allocator),
          fst (advance k c a) = Some LZMA_STREAM_END ->
          a_action k = LZMA_FINISH).
Proof.
  cbv zeta.
  split; [reflexivity|]. split; [discriminate|].
  split; [vm_compute; reflexivity|].
  intros H.
  specialize (H stored (window [x5d; x41; x42] 0 8 LZMA_RUN)
                (fresh 0) 1%nat eq_refl).
  discriminate H.
Qed.

(** C8 without its restriction fails: with [LZMA_TELL_NO_CHECK] set and a first
    byte that selects the LZMA_Alone decoder, a failing initializer's
    status is what the detection call returns. *)
Lemma legacy_init_failure_preempts_no_check :
  let inb := [x5d; x41] in
  let m := enter (window inb 0 8 LZMA_RUN) (fresh 1) 0%nat in
  sequence (m_coder m) = SEQ_INIT
  /\ nth_error inb (m_in_pos m) = Some x5d
  /\ x5d <> xfd
  /\ Z.land (flags (m_coder m)) LZMA_TELL_NO_CHECK <> 0
  /\ m_trace (snd (auto_decode inb 2 8 LZMA_RUN m)) =
     [EvSequence SEQ_CODE; EvPeek 0 x5d; EvAloneInit 65536 LZMA_MEM_ERROR]
  /\ fst (auto_decode inb 2 8 LZMA_RUN m) = Some LZMA_MEM_ERROR
  /\ fst (auto_decode inb 2 8 LZMA_RUN m) <> Some LZMA_NO_CHECK.
Proof.
  cbv zeta.
  split; [reflexivity|]. split; [reflexivity|]. split; [discriminate|].
  split; [vm_compute; discriminate|].
  split; [vm_compute; reflexivity|].
  split; [vm_compute; reflexivity|].
  vm_compute. discriminate.
Qed.

(** C10 without its restriction fails: with both check-reporting flags set and a
    first byte that selects the LZMA_Alone decoder, the detection call
    returns a failing initializer's status, not [LZMA_NO_CHECK]. *)
Lemma legacy_init_failure_preempts_both_flags :
  let inb := [x5d; x41] in
  let m := enter (window inb 0 8 LZMA_RUN) (fresh 5) 0%nat in
  sequence (m_coder m) = SEQ_INIT
  /\ nth_error inb (m_in_pos m) = Some x5d
  /\ x5d <> xfd
  /\ Z.land (flags (m_coder m)) LZMA_TELL_NO_CHECK <> 0
  /\ Z.land (flags (m_coder m)) LZMA_TELL_ANY_CHECK <> 0
  /\ fst (auto_decode inb 2 8 LZMA_RUN m) = Some LZMA_MEM_ERROR
  /\ fst (auto_decode inb 2 8 LZMA_RUN m) <> Some LZMA_NO_CHECK.
Proof.
  cbv zeta.
  split; [reflexivity|]. split; [reflexivity|]. split; [discriminate|].
  split; [vm_compute; discriminate|].
  split; [vm_compute; discriminate|].
  split; [vm_compute; reflexivity|].
  vm_compute. discriminate.
Qed.

End Runs.


(* ------------------------------------------------------------------ *)
(** ** Further properties: the whole life of a dispatcher *)

Section Lifecycle.

Context {L : liblzma}.

Ltac simp_machine :=
  cbn [m_coder m_allocator m_in_pos m_out m_out_pos m_trace
       next memlimit flags sequence set_sequence set_next fst snd
       negb orb andb] in *.

Ltac unfold_monad :=
  unfold return_if_error, store_sequence in *;
  unfold bind, ret, return_, fault, gets, modify, log, with_coder in *;
  simp_machine.

Lemma auto_decode_SEQ_INIT_overrun_machine inb in_size out_size action m :
  sequence (m_coder m) = SEQ_INIT ->
  (m_in_pos m < in_size)%nat ->
  nth_error inb (m_in_pos m) = None ->
  auto_decode inb in_size out_size action m = (None, after_store m).
Proof.
  intros Hs Hlt Hb.
  unfold auto_decode, auto_decode_body, case_SEQ_INIT, peek, after_store.
  unfold_monad. rewrite Hs.
  apply Nat.ltb_lt in Hlt. rewrite Nat.leb_antisym, Hlt. simp_machine.
  rewrite Hb. reflexivity.
Qed.

(** Every call of [auto_decode] ends in one of eight ways. *)
Lemma auto_decode_cases
    (Q : option lzma_ret * machine -> Prop) inb in_size out_size action m :
  (sequence (m_coder m) = SEQ_INIT -> (in_size <= m_in_pos m)%nat ->
   Q (Some LZMA_OK, m)) ->
  (sequence (m_coder m) = SEQ_INIT -> (m_in_pos m < in_size)%nat ->
   nth_error inb (m_in_pos m) = None ->
   Q (None, after_store m)) ->
  (forall b r,
     sequence (m_coder m) = SEQ_INIT -> (m_in_pos m < in_size)%nat ->
     nth_error inb (m_in_pos m) = Some b ->
     init_outcome b m = Return r ->
     Q (Some r, after_init b m)) ->
  (forall m0,
     reaches_code inb in_size m m0 ->
     nested_call inb in_size out_size action m0 = None ->
     Q (None, m0)) ->
  (forall m0 res,
     reaches_code inb in_size m m0 ->
     nested_call inb in_size out_size action m0 = Some res ->
     ~ (cr_ret res = LZMA_STREAM_END
        /\ Z.land (flags (m_coder m0)) LZMA_CONCATENATED <> 0) ->
     Q (Some (cr_ret res), after_code action res m0)) ->
  (forall m0 res,
     reaches_code inb in_size m m0 ->
     nested_call inb in_size out_size action m0 = Some res ->
     cr_ret res = LZMA_STREAM_END ->
     Z.land (flags (m_coder m0)) LZMA_CONCATENATED <> 0 ->
     Q (Some (finish_status (cr_in_pos res) in_size action),
        after_stream_end action res m0)) ->
  (sequence (m_coder m) = SEQ_FINISH ->
   Q (Some (finish_status (m_in_pos m) in_size action), m)) ->
  (forall n, sequence (m_coder m) = SEQ_INVALID n ->
   Q (Some LZMA_PROG_ERROR, m)) ->
  Q (auto_decode inb in_size out_size action m).
Proof.
  intros H1 H2 H3 H4 H5 H6 H7 H8.
  assert (Hcode : forall m0,
    reaches_code inb in_size m m0 ->
    Q (match code_stage inb in_size out_size action m0 with
       | (Return r, m') => (Some r, m')
       | (_, m') => (None, m')
       end)).
  { intros m0 Hm0.
    destruct (code_stage_cases inb in_size out_size action m0)
      as [[Hn Heq] | [(res & Hn & Hno & Heq) | (res & Hn & E & Hc & Heq)]];
      rewrite Heq.
    - apply H4; assumption.
    - apply H5; assumption.
    - apply H6; assumption. }
  destruct (sequence (m_coder m)) eqn:Hs.
  - destruct (Nat.le_gt_cases in_size (m_in_pos m)) as [Hle|Hlt].
    + rewrite (auto_decode_SEQ_INIT_no_input _ _ _ _ _ Hs Hle).
      apply H1; [reflexivity|exact Hle].
    + destruct (nth_error inb (m_in_pos m)) as [b|] eqn:Hb.
      * rewrite (auto_decode_SEQ_INIT_detects _ _ _ _ _ _ Hs Hlt Hb).
        destruct (init_outcome b m) as [u|r|] eqn:Ho.
        -- destruct u. apply Hcode. right. exists b.
           repeat split; try assumption; reflexivity.
        -- apply (H3 b r); try assumption; reflexivity.
        -- exfalso. unfold init_outcome in Ho.
           repeat match type of Ho with
                  | (if ?x then _ else _) = _ => destruct x
                  end; discriminate.
      * rewrite (auto_decode_SEQ_INIT_overrun_machine _ _ _ _ _ Hs Hlt Hb).
        apply H2; [reflexivity|exact Hlt|reflexivity].
  - rewrite (auto_decode_SEQ_CODE _ _ _ _ _ Hs).
    apply Hcode. left. split; [exact Hs|reflexivity].
  - rewrite (auto_decode_SEQ_FINISH _ _ _ _ _ Hs).
    apply H7. reflexivity.
  - rewrite (auto_decode_SEQ_INVALID _ _ _ _ _ _ Hs).
    apply (H8 n). reflexivity.
Qed.

Lemma detected_event_not_code b m :
  is_code_event (detected_event b m) = false.
Proof. unfold detected_event. destruct (Byte.eqb b xfd); reflexivity. Qed.

(** What detection leaves untouched on the way to the [SEQ_CODE] case. *)
Lemma reaches_code_frame inb in_size m m0 :
  reaches_code inb in_size m m0 ->
  m_in_pos m0 = m_in_pos m
  /\ m_out m0 = m_out m
  /\ m_out_pos m0 = m_out_pos m
  /\ memlimit (m_coder m0) = memlimit (m_coder m)
  /\ flags (m_coder m0) = flags (m_coder m)
  /\ sequence (m_coder m0) = SEQ_CODE.
Proof.
  intros [[Hs ->] | (b & _ & _ & _ & _ & ->)].
  - repeat split; try reflexivity. exact Hs.
  - unfold after_init. simp_machine. repeat split; reflexivity.
Qed.

Lemma reaches_code_trace inb in_size m m0 :
  reaches_code inb in_size m m0 ->
  m_trace m0 = m_trace m
  \/ exists b,
       detected_status b m = LZMA_OK
       /\ m_trace m0 =
          m_trace m ++ [EvSequence SEQ_CODE; EvPeek (m_in_pos m) b;
                        detected_event b m].
Proof.
  intros [[_ ->] | (b & _ & _ & _ & Ho & ->)].
  - left. reflexivity.
  - right. exists b. split; [|apply after_init_trace].
    unfold init_outcome, lzma_ret_eqb in Ho.
    destruct (lzma_ret_eq_dec (detected_status b m) LZMA_OK);
      [assumption|discriminate].
Qed.

(* ---------------------------------------------------------------- *)
(** *** Invariants of a run of calls *)

Lemma auto_decode_keeps_config inb in_size out_size action m :
  memlimit (m_coder (snd (auto_decode inb in_size out_size action m)))
  = memlimit (m_coder m)
  /\ flags (m_coder (snd (auto_decode inb in_size out_size action m)))
     = flags (m_coder m).
Proof.
  apply (auto_decode_cases
           (fun rm => memlimit (m_coder (snd rm)) = memlimit (m_coder m)
                      /\ flags (m_coder (snd rm)) = flags (m_coder m)));
    cbn [snd]; intros.
  - split; reflexivity.
  - unfold after_store, log, with_coder. simp_machine. split; reflexivity.
  - unfold after_init. simp_machine. split; reflexivity.
  - destruct (reaches_code_frame _ _ _ _ H) as (_ & _ & _ & Hm & Hf & _).
    split; assumption.
  - destruct (reaches_code_frame _ _ _ _ H) as (_ & _ & _ & Hm & Hf & _).
    unfold after_code. simp_machine. split; assumption.
  - destruct (reaches_code_frame _ _ _ _ H) as (_ & _ & _ & Hm & Hf & _).
    unfold after_stream_end, after_code, log, with_coder. simp_machine.
    split; assumption.
  - split; reflexivity.
  - split; reflexivity.
Qed.

(** X1. No call changes the configuration: over any run of calls the
    dispatcher's [memlimit] and [flags] stay what [auto_decoder_init] set
    them to, whatever the collaborators do. *)
Theorem calls_keep_configuration ks :
  forall c a,
    Forall (fun rm =>
              memlimit (m_coder (snd rm)) = memlimit c
              /\ flags (m_coder (snd rm)) = flags c)
           (drive ks c a).
Proof.
  induction ks as [|k ks IH]; intros c a; cbn [drive]; [constructor|].
  pose proof (auto_decode_keeps_config (a_in k) (a_in_size k)
                (a_out_size k) (a_action k) (enter k c a)) as [Hm Hf].
  fold (advance k c a) in Hm, Hf.
  destruct (advance k c a) as [r m1]. cbn [snd enter m_coder] in Hm, Hf.
  constructor.
  - cbn [snd]. split; assumption.
  - destruct r; [|constructor].
    eapply Forall_impl; [|apply IH].
    intros rm [H1 H2]. split; congruence.
Qed.

Lemma auto_decode_no_finish_without_concatenated
    inb in_size out_size action m :
  Z.land (flags (m_coder m)) LZMA_CONCATENATED = 0 ->
  sequence (m_coder m) <> SEQ_FINISH ->
  sequence (m_coder (snd (auto_decode inb in_size out_size action m)))
  <> SEQ_FINISH.
Proof.
  intros Hc Hs.
  apply (auto_decode_cases
           (fun rm => sequence (m_coder (snd rm)) <> SEQ_FINISH));
    cbn [snd]; intros.
  - exact Hs.
  - unfold after_store, log, with_coder. simp_machine. discriminate.
  - unfold after_init. simp_machine. discriminate.
  - destruct (reaches_code_frame _ _ _ _ H) as (_ & _ & _ & _ & _ & E).
    rewrite E. discriminate.
  - destruct (reaches_code_frame _ _ _ _ H) as (_ & _ & _ & _ & _ & E).
    unfold after_code. simp_machine. rewrite E. discriminate.
  - destruct (reaches_code_frame _ _ _ _ H) as (_ & _ & _ & _ & Hf & _).
    exfalso. apply H2. rewrite Hf. exact Hc.
  - contradiction.
  - exact Hs.
Qed.

(** X2. Without [LZMA_CONCATENATED] the Finish state cannot be reached:
    over any run of calls on a dispatcher that is not in [SEQ_FINISH],
    [sequence] never becomes [SEQ_FINISH], so input left after the end of
    the stream is never audited by the dispatcher. *)
Theorem finish_unreachable_without_concatenated ks :
  forall c a,
    Z.land (flags c) LZMA_CONCATENATED = 0 ->
    sequence c <> SEQ_FINISH ->
    Forall (fun rm => sequence (m_coder (snd rm)) <> SEQ_FINISH)
           (drive ks c a).
Proof.
  induction ks as [|k ks IH]; intros c a Hc Hs; cbn [drive]; [constructor|].
  pose proof (auto_decode_no_finish_without_concatenated (a_in k)
                (a_in_size k) (a_out_size k) (a_action k) (enter k c a)
                Hc Hs) as Hn.
  pose proof (auto_decode_keeps_config (a_in k) (a_in_size k)
                (a_out_size k) (a_action k) (enter k c a)) as [_ Hf].
  fold (advance k c a) in Hn, Hf.
  destruct (advance k c a) as [r m1]. cbn [snd enter m_coder] in Hn, Hf.
  constructor; [exact Hn|].
  destruct r; [|constructor].
  apply IH; [rewrite Hf; exact Hc | exact Hn].
Qed.

(** X3. The Finish state is terminal: over any run of calls on a
    dispatcher in [SEQ_FINISH] nothing is called and nothing changes
    (coder, allocator, cursors, output buffer), and each call only audits
    its own input window: [LZMA_DATA_ERROR] if a byte is left,
    [LZMA_STREAM_END] for [LZMA_FINISH], [LZMA_OK] otherwise. *)
Theorem finish_state_is_terminal ks c a :
  sequence c = SEQ_FINISH ->
  Forall2 (fun k rm =>
             snd rm = enter k c a
             /\ ((a_in_pos k < a_in_size k)%nat ->
                 fst rm = Some LZMA_DATA_ERROR)
             /\ ((a_in_size k <= a_in_pos k)%nat ->
                 fst rm = Some (if lzma_action_eqb (a_action k) LZMA_FINISH
                                then LZMA_STREAM_END else LZMA_OK)))
          ks (drive ks c a).
Proof.
  intros Hs. induction ks as [|k ks IH]; cbn [drive]; [constructor|].
  unfold advance.
  rewrite (auto_decode_SEQ_FINISH (a_in k) (a_in_size k) (a_out_size k)
             (a_action k) (enter k c a) Hs).
  cbn [enter m_coder m_allocator m_in_pos].
  constructor; [|exact IH].
  cbn [fst snd]. unfold finish_status. split; [reflexivity|]. split.
  - intros Hlt. apply Nat.ltb_lt in Hlt. rewrite Hlt. reflexivity.
  - intros Hle. apply Nat.ltb_ge in Hle. rewrite Hle. reflexivity.
Qed.

(* ---------------------------------------------------------------- *)
(** *** What one call may do *)

(** X4. One call of the dispatcher calls at most one initializer and
    calls the nested coder's [code] at most once; and a call that does not
    reach the nested coder leaves both cursors and the output buffer
    exactly as the caller passed them: the dispatcher itself never
    consumes input or produces output. *)
Theorem one_delegate_call_per_advance k c a :
  let m' := snd (advance k c a) in
  (length (filter is_init_event (m_trace m')) <= 1)%nat
  /\ (length (filter is_code_event (m_trace m')) <= 1)%nat
  /\ (filter is_code_event (m_trace m') = [] ->
      m_in_pos m' = a_in_pos k
      /\ m_out m' = a_out k
      /\ m_out_pos m' = a_out_pos k).
Proof.
  cbv zeta. unfold advance.
  assert (Hpre : forall m0,
    reaches_code (a_in k) (a_in_size k) (enter k c a) m0 ->
    (length (filter is_init_event (m_trace m0)) <= 1)%nat
    /\ filter is_code_event (m_trace m0) = []
    /\ m_in_pos m0 = a_in_pos k
    /\ m_out m0 = a_out k
    /\ m_out_pos m0 = a_out_pos k).
  { intros m0 H.
    destruct (reaches_code_frame _ _ _ _ H) as (Hi & Ho & Hp & _).
    cbn [enter m_in_pos m_out m_out_pos] in Hi, Ho, Hp.
    destruct (reaches_code_trace _ _ _ _ H) as [Ht | (b & _ & Ht)];
      rewrite Ht; cbn [enter m_trace app filter is_init_event init_status
                       is_code_event].
    - repeat split; try assumption. cbn. lia.
    - rewrite (proj1 (detected_event_is_init b _)).
      rewrite detected_event_not_code.
      repeat split; try assumption. cbn. lia. }
  apply (auto_decode_cases
           (fun rm =>
              (length (filter is_init_event (m_trace (snd rm))) <= 1)%nat
              /\ (length (filter is_code_event (m_trace (snd rm))) <= 1)%nat
              /\ (filter is_code_event (m_trace (snd rm)) = [] ->
                  m_in_pos (snd rm) = a_in_pos k
                  /\ m_out (snd rm) = a_out k
                  /\ m_out_pos (snd rm) = a_out_pos k)));
    cbn [snd]; intros.
  - cbn. repeat split; lia.
  - cbn. repeat split; lia.
  - rewrite after_init_trace.
    cbn [enter m_trace app filter is_init_event init_status is_code_event].
    rewrite (proj1 (detected_event_is_init b _)).
    rewrite detected_event_not_code.
    unfold after_init. simp_machine. cbn. repeat split; lia.
  - destruct (Hpre m0 H) as (Hi & Hc & Hrest).
    rewrite Hc. split; [exact Hi|]. split; [cbn; lia|].
    intros _. exact Hrest.
  - destruct (Hpre m0 H) as (Hi & Hc & _).
    unfold after_code. simp_machine.
    rewrite !filter_app, Hc, length_app.
    cbn [filter is_init_event init_status is_code_event app length].
    split; [lia|]. split; [lia|]. discriminate.
  - destruct (Hpre m0 H) as (Hi & Hc & _).
    unfold after_stream_end, after_code, log, with_coder. simp_machine.
    rewrite !filter_app, Hc, !length_app.
    cbn [filter is_init_event init_status is_code_event app length].
    split; [lia|]. split; [lia|]. discriminate.
  - cbn. repeat split; lia.
  - cbn. repeat split; lia.
Qed.

Lemma finish_status_is_own pos in_size action :
  In (finish_status pos in_size action)
     [LZMA_OK; LZMA_STREAM_END; LZMA_NO_CHECK; LZMA_GET_CHECK;
      LZMA_DATA_ERROR].
Proof.
  unfold finish_status.
  destruct (pos <? in_size)%nat; [cbn; auto 10|].
  destruct (lzma_action_eqb action LZMA_FINISH); cbn; auto 10.
Qed.

(** X5. Every status a call returns is one of the five the dispatcher
    produces in its three states ([LZMA_OK], [LZMA_STREAM_END],
    [LZMA_NO_CHECK], [LZMA_GET_CHECK], [LZMA_DATA_ERROR]), or the status
    a collaborator (an initializer or the nested coder) returned during
    that very call, or the [LZMA_PROG_ERROR] of the [default:] branch.
    The [default:] branch is taken exactly when [sequence] is none of
    the three enumerators, and then nothing is called and nothing
    changes.  So errors such as [LZMA_MEM_ERROR] or [LZMA_OPTIONS_ERROR]
    only ever come from a collaborator. *)
Theorem returned_status_provenance k c a r :
  fst (advance k c a) = Some r ->
  (In r [LZMA_OK; LZMA_STREAM_END; LZMA_NO_CHECK; LZMA_GET_CHECK;
         LZMA_DATA_ERROR]
   \/ (exists e,
         In e (m_trace (snd (advance k c a)))
         /\ event_status e = Some r)
   \/ (r = LZMA_PROG_ERROR
       /\ exists n, sequence c = SEQ_INVALID n))
  /\ (forall n,
        sequence c = SEQ_INVALID n ->
        r = LZMA_PROG_ERROR /\ snd (advance k c a) = enter k c a).
Proof.
  intros Hr. split.
  - revert Hr. unfold advance.
    apply (auto_decode_cases
             (fun rm =>
                fst rm = Some r ->
                In r [LZMA_OK; LZMA_STREAM_END; LZMA_NO_CHECK;
                      LZMA_GET_CHECK; LZMA_DATA_ERROR]
                \/ (exists e,
                      In e (m_trace (snd rm)) /\ event_status e = Some r)
                \/ (r = LZMA_PROG_ERROR
                    /\ exists n, sequence c = SEQ_INVALID n)));
      cbn [fst snd]; intros.
    + left. injection H1 as <-. cbn. auto 10.
    + discriminate.
    + injection H3 as <-.
      unfold init_outcome, lzma_ret_eqb in H2.
      destruct (lzma_ret_eq_dec (detected_status b (enter k c a)) LZMA_OK).
      * left. cbn [negb] in H2.
        repeat match type of H2 with
               | (if ?x then _ else _) = _ => destruct x
               end; try discriminate; injection H2 as <-; cbn; auto 10.
      * right. left. cbn [negb] in H2. injection H2 as <-.
        exists (detected_event b (enter k c a)). split.
        -- rewrite after_init_trace. apply in_or_app. right.
           cbn. auto 10.
        -- unfold detected_event. destruct (Byte.eqb b xfd); reflexivity.
    + discriminate.
    + injection H2 as <-. right. left.
      exists (EvCode (a_action k) (cr_ret res)). split; [|reflexivity].
      unfold after_code. simp_machine. apply in_or_app. right. cbn. auto.
    + injection H3 as <-. left. apply finish_status_is_own.
    + injection H0 as <-. left. apply finish_status_is_own.
    + injection H0 as <-. right. right. split; [reflexivity|].
      exists n. exact H.
  - intros n Hs. unfold advance in *.
    rewrite (auto_decode_SEQ_INVALID (a_in k) (a_in_size k) (a_out_size k)
               (a_action k) (enter k c a) n Hs) in *.
    cbn [fst snd] in *. split; [congruence|reflexivity].
Qed.

(* ---------------------------------------------------------------- *)
(** *** From detection to decoding *)

Lemma init_outcome_falls_through b m :
  detected_status b m = LZMA_OK ->
  b = xfd
  \/ (Z.land (flags (m_coder m)) LZMA_TELL_NO_CHECK = 0
      /\ Z.land (flags (m_coder m)) LZMA_TELL_ANY_CHECK = 0) ->
  init_outcome b m = Next tt.
Proof.
  intros Hok Hcase. unfold init_outcome. rewrite Hok.
  unfold lzma_ret_eqb.
  destruct (lzma_ret_eq_dec LZMA_OK LZMA_OK) as [_|N]; [|congruence].
  cbn [negb].
  destruct Hcase as [-> | [Hn Ha]]; [reflexivity|].
  rewrite Hn, Ha. cbn [Z.eqb negb].
  destruct (Byte.eqb b xfd); reflexivity.
Qed.

(** X6. Detection does not consume the byte it looks at, and decoding
    starts in the same call: when the initializer succeeds and no check
    status is due (stream format, or neither [LZMA_TELL_NO_CHECK] nor
    [LZMA_TELL_ANY_CHECK] set), the detecting call goes on exactly as a
    [SEQ_CODE] call would on the machine the initializer left, whose
    cursors and output buffer are still the caller's. *)
Theorem detection_falls_through_to_code inb in_size out_size action m b :
  sequence (m_coder m) = SEQ_INIT ->
  (m_in_pos m < in_size)%nat ->
  nth_error inb (m_in_pos m) = Some b ->
  detected_status b m = LZMA_OK ->
  b = xfd
  \/ (Z.land (flags (m_coder m)) LZMA_TELL_NO_CHECK = 0
      /\ Z.land (flags (m_coder m)) LZMA_TELL_ANY_CHECK = 0) ->
  auto_decode inb in_size out_size action m =
  auto_decode inb in_size out_size action (after_init b m)
  /\ sequence (m_coder (after_init b m)) = SEQ_CODE
  /\ m_in_pos (after_init b m) = m_in_pos m
  /\ m_out (after_init b m) = m_out m
  /\ m_out_pos (after_init b m) = m_out_pos m.
Proof.
  intros Hs Hlt Hb Hok Hcase.
  split; [|unfold after_init; simp_machine; repeat split; reflexivity].
  rewrite (auto_decode_SEQ_INIT_detects _ _ _ _ _ _ Hs Hlt Hb).
  rewrite (init_outcome_falls_through b m Hok Hcase).
  rewrite (auto_decode_SEQ_CODE inb in_size out_size action (after_init b m));
    reflexivity.
Qed.

(** X7. When detection selects the LZMA_Alone decoder, its initializer
    returns [LZMA_OK], [LZMA_TELL_NO_CHECK] is not set and
    [LZMA_TELL_ANY_CHECK] is, the detecting call returns
    [LZMA_GET_CHECK] without calling the nested coder: cursors and output
    buffer are unchanged and [sequence] is [SEQ_CODE], so the next call
    starts decoding. *)
Theorem legacy_get_check_reported_at_detection
    inb in_size out_size action m b :
  sequence (m_coder m) = SEQ_INIT ->
  (m_in_pos m < in_size)%nat ->
  nth_error inb (m_in_pos m) = Some b ->
  b <> xfd ->
  Z.land (flags (m_coder m)) LZMA_TELL_NO_CHECK = 0 ->
  Z.land (flags (m_coder m)) LZMA_TELL_ANY_CHECK <> 0 ->
  fst (fst (lzma_alone_decoder_init (next (m_coder m)) (m_allocator m)
              (memlimit (m_coder m)))) = LZMA_OK ->
  let r := fst (auto_decode inb in_size out_size action m) in
  let m' := snd (auto_decode inb in_size out_size action m) in
  r = Some LZMA_GET_CHECK
  /\ m_in_pos m' = m_in_pos m
  /\ m_out m' = m_out m
  /\ m_out_pos m' = m_out_pos m
  /\ sequence (m_coder m') = SEQ_CODE
  /\ m_trace m' =
     m_trace m ++ [EvSequence SEQ_CODE; EvPeek (m_in_pos m) b;
                   EvAloneInit (memlimit (m_coder m)) LZMA_OK].
Proof.
  intros Hs Hlt Hb Hne Hno Hany Hok. cbv zeta.
  rewrite (auto_decode_SEQ_INIT_detects _ _ _ _ _ _ Hs Hlt Hb).
  assert (Ho : init_outcome b m = Return LZMA_GET_CHECK).
  { unfold init_outcome, detected_status, detected_init.
    rewrite (eqb_xfd_false _ Hne), Hok, Hno.
    apply Z.eqb_neq in Hany. rewrite Hany. reflexivity. }
  rewrite Ho. cbn [fst snd]. rewrite after_init_trace.
  unfold after_init, detected_event, detected_status, detected_init.
  simp_machine. rewrite (eqb_xfd_false _ Hne), Hok.
  repeat split; reflexivity.
Qed.

(** X8. With [LZMA_CONCATENATED] set, the call in which the nested coder
    reports [LZMA_STREAM_END] audits the input at once, at the cursor the
    nested coder left: [LZMA_DATA_ERROR] if a byte remains after it,
    otherwise [LZMA_STREAM_END] for [LZMA_FINISH] and [LZMA_OK] for any
    other action.  The caller gets the nested coder's cursors and output,
    and [sequence] is [SEQ_FINISH]. *)
Theorem stream_end_is_audited_in_the_same_call
    inb in_size out_size action m res :
  sequence (m_coder m) = SEQ_CODE ->
  nested_call inb in_size out_size action m = Some res ->
  cr_ret res = LZMA_STREAM_END ->
  Z.land (flags (m_coder m)) LZMA_CONCATENATED <> 0 ->
  let r := fst (auto_decode inb in_size out_size action m) in
  let m' := snd (auto_decode inb in_size out_size action m) in
  sequence (m_coder m') = SEQ_FINISH
  /\ m_in_pos m' = cr_in_pos res
  /\ m_out m' = cr_out res
  /\ m_out_pos m' = cr_out_pos res
  /\ ((cr_in_pos res < in_size)%nat -> r = Some LZMA_DATA_ERROR)
  /\ ((in_size <= cr_in_pos res)%nat ->
      r = Some (if lzma_action_eqb action LZMA_FINISH
                then LZMA_STREAM_END else LZMA_OK)).
Proof.
  intros Hs Hn E Hc. cbv zeta.
  rewrite (auto_decode_SEQ_CODE _ _ _ _ _ Hs).
  rewrite (code_stage_finish _ _ _ _ _ _ Hn E Hc). cbn [fst snd].
  unfold after_stream_end, after_code, log, with_coder, finish_status.
  simp_machine.
  split; [reflexivity|]. split; [reflexivity|]. split; [reflexivity|].
  split; [reflexivity|]. split.
  - intros Hlt. apply Nat.ltb_lt in Hlt. rewrite Hlt. reflexivity.
  - intros Hle. apply Nat.ltb_ge in Hle. rewrite Hle. reflexivity.
Qed.

(** X9. A failed initializer leaves the dispatcher unusable if it left
    the nested slot without a [code] function: the detecting call returns
    the initializer's status, and since [sequence] is already
    [SEQ_CODE], every further call goes through the NULL [code] pointer
    (undefined behaviour) instead of running detection again. *)
Theorem call_after_failed_initializer_faults
    inb in_size out_size action m b :
  sequence (m_coder m) = SEQ_INIT ->
  (m_in_pos m < in_size)%nat ->
  nth_error inb (m_in_pos m) = Some b ->
  detected_status b m <> LZMA_OK ->
  code (snd (fst (detected_init b m))) = None ->
  let m' := snd (auto_decode inb in_size out_size action m) in
  fst (auto_decode inb in_size out_size action m)
  = Some (detected_status b m)
  /\ forall k, fst (advance k (m_coder m') (m_allocator m')) = None.
Proof.
  intros Hs Hlt Hb Hne Hnull. cbv zeta.
  destruct (detecting_call_trace inb in_size out_size action m b
              Hs Hlt Hb) as (rest & _ & _ & _ & Hfail).
  destruct (Hfail Hne) as [Heq _]. rewrite Heq. cbn [fst snd].
  split; [reflexivity|]. intros k. unfold advance.
  rewrite auto_decode_SEQ_CODE; [|reflexivity].
  rewrite code_stage_fault; [reflexivity|].
  unfold nested_call, enter, after_init. simp_machine.
  rewrite Hnull. reflexivity.
Qed.

(* ---------------------------------------------------------------- *)
(** *** Configuration: [auto_decoder_init] *)

Lemma lzma_next_coder_init_records (C : Type) func
    (n : lzma_next_coder allocator C) (a : allocator) :
  init (fst (lzma_next_coder_init func n a)) = func.
Proof.
  unfold lzma_next_coder_init.
  destruct (if func =? init n then (n, a) else lzma_next_end C n a).
  reflexivity.
Qed.

(** X10. [auto_decoder_init] returns [LZMA_OPTIONS_ERROR] exactly when
    [flags] has a bit outside [LZMA_SUPPORTED_FLAGS] (the flags are
    checked first, so this wins over an allocation failure), returns
    [LZMA_MEM_ERROR] exactly when its one call of [lzma_alloc] failed, and
    [LZMA_OK] otherwise; it calls [lzma_alloc] at most once; and whatever
    it returns, the handle then names [auto_decoder_init] as its
    initializer. *)
Theorem configure_status n a memlimit_ flags_ :
  let r := auto_decoder_init n a memlimit_ flags_ in
  (ir_ret r = LZMA_OPTIONS_ERROR <->
   Z.land flags_ (lnot32 LZMA_SUPPORTED_FLAGS) <> 0)
  /\ (ir_ret r = LZMA_MEM_ERROR <-> ir_trace r = [EvAlloc false])
  /\ (ir_ret r = LZMA_OPTIONS_ERROR \/ ir_ret r = LZMA_MEM_ERROR
      \/ ir_ret r = LZMA_OK)
  /\ (length (ir_trace r) <= 1)%nat
  /\ init (ir_next r) = auto_decoder_init_addr.
Proof.
  cbv zeta. unfold auto_decoder_init.
  pose proof (lzma_next_coder_init_records lzma_coder
                auto_decoder_init_addr n a) as Hrec.
  destruct (lzma_next_coder_init auto_decoder_init_addr n a) as [n1 a1].
  cbn [fst] in Hrec.
  destruct (Z.eqb_spec (Z.land flags_ (lnot32 LZMA_SUPPORTED_FLAGS)) 0)
    as [Z0|Z0]; cbn [negb].
  - destruct (coder n1) as [c|].
    + cbn [ir_ret ir_trace ir_next init length].
      repeat split; try discriminate; try congruence; auto.
    + destruct (lzma_alloc a1) as [[|] a2]; cbn [negb];
        cbn [ir_ret ir_trace ir_next init length];
        repeat split; try discriminate; try congruence; auto.
  - cbn [ir_ret ir_trace ir_next length].
    repeat split; try discriminate; try congruence; auto.
Qed.

(** X11. When [auto_decoder_init] returns [LZMA_OK], the handle holds a
    dispatcher in [SEQ_INIT] with exactly the [memlimit] and [flags]
    passed, and those flags are all supported: the next call with input
    available runs detection, whatever the handle was used for before. *)
Theorem configure_ok_resets_to_init n a memlimit_ flags_ :
  ir_ret (auto_decoder_init n a memlimit_ flags_) = LZMA_OK ->
  Z.land flags_ (lnot32 LZMA_SUPPORTED_FLAGS) = 0
  /\ exists c,
       coder (ir_next (auto_decoder_init n a memlimit_ flags_)) = Some c
       /\ sequence c = SEQ_INIT
       /\ memlimit c = memlimit_
       /\ flags c = flags_.
Proof.
  unfold auto_decoder_init.
  destruct (lzma_next_coder_init auto_decoder_init_addr n a) as [n1 a1].
  destruct (Z.eqb_spec (Z.land flags_ (lnot32 LZMA_SUPPORTED_FLAGS)) 0)
    as [Z0|Z0]; cbn [negb]; [|discriminate].
  destruct (coder n1) as [c|].
  - intros _. split; [exact Z0|]. eexists. cbn [ir_next coder].
    split; [reflexivity|]. repeat split.
  - destruct (lzma_alloc a1) as [[|] a2]; cbn [negb]; [|discriminate].
    intros _. split; [exact Z0|]. eexists. cbn [ir_next coder].
    split; [reflexivity|]. repeat split.
Qed.

Lemma reinit_keeps_nested_slot n a memlimit_ flags_ c :
  init n = auto_decoder_init_addr ->
  coder n = Some c ->
  Z.land flags_ (lnot32 LZMA_SUPPORTED_FLAGS) = 0 ->
  coder (ir_next (auto_decoder_init n a memlimit_ flags_)) =
  Some {| next := next c; memlimit := memlimit_; flags := flags_;
          sequence := SEQ_INIT |}
  /\ ir_allocator (auto_decoder_init n a memlimit_ flags_) = a.
Proof.
  intros Hown Hc Hfl. unfold auto_decoder_init.
  rewrite <- Hown, lzma_next_coder_init_same.
  rewrite Hfl. cbn [Z.eqb negb]. rewrite Hc.
  cbn [ir_allocator ir_next coder]. split; reflexivity.
Qed.

(** X12. Re-configuring a handle that [auto_decoder_init] set up before
    and that holds a dispatcher [c], with supported flags, allocates
    nothing and leaves the allocator alone; it replaces [memlimit] and
    [flags], resets [sequence] to [SEQ_INIT] whatever it was, and keeps
    the nested coder of [c] and the handle's function pointers in
    place. *)
Theorem reconfigure_reuses_dispatcher n a memlimit_ flags_ c :
  init n = auto_decoder_init_addr ->
  coder n = Some c ->
  Z.land flags_ (lnot32 LZMA_SUPPORTED_FLAGS) = 0 ->
  let r := auto_decoder_init n a memlimit_ flags_ in
  ir_ret r = LZMA_OK
  /\ ir_trace r = []
  /\ ir_allocator r = a
  /\ coder (ir_next r) =
     Some {| next := next c; memlimit := memlimit_; flags := flags_;
             sequence := SEQ_INIT |}
  /\ init (ir_next r) = init n
  /\ code (ir_next r) = code n
  /\ end_ (ir_next r) = end_ n
  /\ get_check (ir_next r) = get_check n.
Proof.
  intros Hown Hc Hfl. cbv zeta. unfold auto_decoder_init.
  rewrite <- Hown, lzma_next_coder_init_same.
  rewrite Hfl. cbn [Z.eqb negb]. rewrite Hc.
  cbn [ir_ret ir_trace ir_allocator ir_next coder init code end_ get_check].
  repeat split; reflexivity.
Qed.

(** X13. Re-configuration does not reset the reported check kind: right
    after a successful re-configuration of a dispatcher [c],
    [auto_decoder_get_check] still answers from the nested coder of the
    previous stream, as it did before: the answer of that coder's
    [get_check] where it has one, [LZMA_CHECK_NONE] where it has none. *)
Theorem get_check_survives_reconfiguration n a memlimit_ flags_ c :
  init n = auto_decoder_init_addr ->
  coder n = Some c ->
  Z.land flags_ (lnot32 LZMA_SUPPORTED_FLAGS) = 0 ->
  let after :=
    auto_decoder_get_check
      (coder (ir_next (auto_decoder_init n a memlimit_ flags_))) in
  after = auto_decoder_get_check (coder n)
  /\ (forall g, get_check (next c) = Some g -> after = g (coder (next c)))
  /\ (get_check (next c) = None -> after = Some LZMA_CHECK_NONE).
Proof.
  intros Hown Hc Hfl. cbv zeta.
  destruct (reinit_keeps_nested_slot n a memlimit_ flags_ c Hown Hc Hfl)
    as [Hcod _].
  rewrite Hcod, Hc. unfold auto_decoder_get_check. cbn [next].
  split; [reflexivity|]. split.
  - intros g Hg. rewrite Hg. reflexivity.
  - intros Hg. rewrite Hg. reflexivity.
Qed.

(** X14. Configuring a handle that holds no dispatcher, with supported
    flags and a successful [lzma_alloc]: the result is [LZMA_OK] after
    exactly one allocation, the new dispatcher's nested slot is empty
    (so [auto_decoder_get_check] reports [LZMA_CHECK_NONE] before any
    input is seen) and the handle's function pointers are the three
    functions of auto_decoder.c. *)
Theorem configure_fresh_dispatcher n a memlimit_ flags_ n1 a1 a2 :
  lzma_next_coder_init auto_decoder_init_addr n a = (n1, a1) ->
  coder n1 = None ->
  lzma_alloc a1 = (true, a2) ->
  Z.land flags_ (lnot32 LZMA_SUPPORTED_FLAGS) = 0 ->
  let r := auto_decoder_init n a memlimit_ flags_ in
  ir_ret r = LZMA_OK
  /\ ir_trace r = [EvAlloc true]
  /\ ir_allocator r = a2
  /\ coder (ir_next r) =
     Some {| next := LZMA_NEXT_CODER_INIT; memlimit := memlimit_;
             flags := flags_; sequence := SEQ_INIT |}
  /\ code (ir_next r) = Some auto_decode_ptr
  /\ end_ (ir_next r) = Some auto_decoder_end
  /\ get_check (ir_next r) = Some auto_decoder_get_check
  /\ auto_decoder_get_check (coder (ir_next r)) = Some LZMA_CHECK_NONE.
Proof.
  intros Hmac Hc Hal Hfl. cbv zeta. unfold auto_decoder_init.
  rewrite Hmac, Hfl. cbn [Z.eqb negb]. rewrite Hc, Hal. cbn [negb].
  cbn [ir_ret ir_trace ir_allocator ir_next coder code end_ get_check].
  repeat split; reflexivity.
Qed.

(** X15. Configuring a handle that holds no dispatcher when [lzma_alloc]
    fails: the result is [LZMA_MEM_ERROR], the handle still holds no
    dispatcher and its function pointers were not touched (they are as
    [lzma_next_coder_init] left them). *)
Theorem configure_allocation_failure n a memlimit_ flags_ n1 a1 a2 :
  lzma_next_coder_init auto_decoder_init_addr n a = (n1, a1) ->
  coder n1 = None ->
  lzma_alloc a1 = (false, a2) ->
  Z.land flags_ (lnot32 LZMA_SUPPORTED_FLAGS) = 0 ->
  let r := auto_decoder_init n a memlimit_ flags_ in
  ir_ret r = LZMA_MEM_ERROR
  /\ ir_next r = n1
  /\ coder (ir_next r) = None
  /\ ir_allocator r = a2.
Proof.
  intros Hmac Hc Hal Hfl. cbv zeta. unfold auto_decoder_init.
  rewrite Hmac, Hfl. cbn [Z.eqb negb]. rewrite Hc, Hal. cbn [negb].
  cbn [ir_ret ir_next ir_allocator].
  repeat split; try reflexivity. exact Hc.
Qed.

(** X16. A re-configured dispatcher detects again, with the new
    configuration and on the old nested slot: after a successful
    re-configuration of a dispatcher [c] (in whatever state), the next
    call that sees a byte [b] stores [SEQ_CODE], reads the byte and calls
    the initializer that [b] selects on [next c], the nested coder left
    by the previous stream, with the new [memlimit] (and [flags]).  The
    machine [m1] then holds the slot and the allocator that initializer
    returned, with the caller's cursors and output; a failing
    initializer's status is returned at [m1], and after a successful one
    the call goes on from [m1] or returns a check status there. *)
Theorem reconfigured_dispatcher_detects_again
    n a memlimit_ flags_ c k b :
  init n = auto_decoder_init_addr ->
  coder n = Some c ->
  Z.land flags_ (lnot32 LZMA_SUPPORTED_FLAGS) = 0 ->
  (a_in_pos k < a_in_size k)%nat ->
  nth_error (a_in k) (a_in_pos k) = Some b ->
  let r := auto_decoder_init n a memlimit_ flags_ in
  let c' := {| next := next c; memlimit := memlimit_; flags := flags_;
               sequence := SEQ_INIT |} in
  let i := if Byte.eqb b xfd
           then lzma_stream_decoder_init (next c) a memlimit_ flags_
           else lzma_alone_decoder_init (next c) a memlimit_ in
  let m1 :=
    {| m_coder := {| next := snd (fst i); memlimit := memlimit_;
                     flags := flags_; sequence := SEQ_CODE |};
       m_allocator := snd i;
       m_in_pos := a_in_pos k;
       m_out := a_out k;
       m_out_pos := a_out_pos k;
       m_trace := [EvSequence SEQ_CODE; EvPeek (a_in_pos k) b;
                   if Byte.eqb b xfd
                   then EvStreamInit memlimit_ flags_ (fst (fst i))
                   else EvAloneInit memlimit_ (fst (fst i))] |} in
  coder (ir_next r) = Some c'
  /\ ir_allocator r = a
  /\ (exists rest,
        m_trace (snd (advance k c' a)) = m_trace m1 ++ rest
        /\ Forall (fun e => is_detection_event e = false) rest)
  /\ sequence (m_coder (snd (advance k c' a))) <> SEQ_INIT
  /\ (fst (fst i) <> LZMA_OK ->
      advance k c' a = (Some (fst (fst i)), m1))
  /\ (fst (fst i) = LZMA_OK ->
      advance k c' a =
      if Byte.eqb b xfd
      then auto_decode (a_in k) (a_in_size k) (a_out_size k) (a_action k) m1
      else if negb (Z.land flags_ LZMA_TELL_NO_CHECK =? 0)
      then (Some LZMA_NO_CHECK, m1)
      else if negb (Z.land flags_ LZMA_TELL_ANY_CHECK =? 0)
      then (Some LZMA_GET_CHECK, m1)
      else auto_decode (a_in k) (a_in_size k) (a_out_size k)
             (a_action k) m1).
Proof.
  intros Hown Hc Hfl Hlt Hb. cbv zeta.
  destruct (reinit_keeps_nested_slot n a memlimit_ flags_ c Hown Hc Hfl)
    as (Hcod & Hal).
  split; [exact Hcod|]. split; [exact Hal|].
  set (c' := {| next := next c; memlimit := memlimit_; flags := flags_;
                sequence := SEQ_INIT |}).
  assert (Hm1 : after_init b (enter k c' a) =
    {| m_coder :=
         {| next := snd (fst (detected_init b (enter k c' a)));
            memlimit := memlimit_; flags := flags_;
            sequence := SEQ_CODE |};
       m_allocator := snd (detected_init b (enter k c' a));
       m_in_pos := a_in_pos k;
       m_out := a_out k;
       m_out_pos := a_out_pos k;
       m_trace := [EvSequence SEQ_CODE; EvPeek (a_in_pos k) b;
                   detected_event b (enter k c' a)] |}) by reflexivity.
  assert (Hi : detected_init b (enter k c' a) =
               if Byte.eqb b xfd
               then lzma_stream_decoder_init (next c) a memlimit_ flags_
               else lzma_alone_decoder_init (next c) a memlimit_)
    by reflexivity.
  assert (He : detected_event b (enter k c' a) =
               if Byte.eqb b xfd
               then EvStreamInit memlimit_ flags_
                      (fst (fst (detected_init b (enter k c' a))))
               else EvAloneInit memlimit_
                      (fst (fst (detected_init b (enter k c' a)))))
    by reflexivity.
  rewrite He, Hi in Hm1.
  destruct (detecting_call_trace (a_in k) (a_in_size k) (a_out_size k)
              (a_action k) (enter k c' a) b eq_refl Hlt Hb)
    as (rest & Ht & Hnd & Hseq & _).
  destruct (detecting_call_outcome (a_in k) (a_in_size k) (a_out_size k)
              (a_action k) (enter k c' a) b eq_refl Hlt Hb)
    as [Hfail Hok].
  unfold detected_status in Hfail, Hok.
  rewrite Hi, Hm1 in Hfail, Hok.
  unfold advance.
  split; [|split; [exact Hseq|split; [exact Hfail|exact Hok]]].
  exists rest. split; [|exact Hnd].
  rewrite Ht, He, Hi. reflexivity.
Qed.

End Lifecycle.


(* ------------------------------------------------------------------ *)
(** ** The lifecycle theorems on the concrete collaborators *)

Module LifecycleRuns.

Import Fixture.
#[local] Existing Instance stored.

(** A stream that ends in the first call, then one more call: without
    [LZMA_CONCATENATED] the dispatcher stays in [SEQ_CODE]. *)
Lemma finish_unreachable_without_concatenated_run :
  let ks := [window [x5d; x41; x42] 0 8 LZMA_RUN;
             window [x42] 0 8 LZMA_FINISH] in
  Z.land (flags (fresh 0)) LZMA_CONCATENATED = 0
  /\ sequence (fresh 0) <> SEQ_FINISH
  /\ Forall (fun rm => sequence (m_coder (snd rm)) <> SEQ_FINISH)
            (drive ks (fresh 0) 1%nat).
Proof.
  cbv zeta.
  assert (H1 : Z.land (flags (fresh 0)) LZMA_CONCATENATED = 0)
    by reflexivity.
  assert (H2 : sequence (fresh 0) <> SEQ_FINISH) by discriminate.
  split; [exact H1|]. split; [exact H2|].
  exact (finish_unreachable_without_concatenated (L := stored)
           _ (fresh 0) 1%nat H1 H2).
Defined.

(** Three calls on a dispatcher that has finished. *)
Lemma finish_state_is_terminal_run :
  let ks := [window [x2a] 0 8 LZMA_RUN; window [] 0 8 LZMA_RUN;
             window [] 0 8 LZMA_FINISH] in
  let c := running 8 0 SEQ_FINISH in
  sequence c = SEQ_FINISH
  /\ map fst (drive ks c 0%nat) =
     [Some LZMA_DATA_ERROR; Some LZMA_OK; Some LZMA_STREAM_END]
  /\ Forall2 (fun k rm =>
               snd rm = enter k c 0%nat
               /\ ((a_in_pos k < a_in_size k)%nat ->
                   fst rm = Some LZMA_DATA_ERROR)
               /\ ((a_in_size k <= a_in_pos k)%nat ->
                   fst rm =
                   Some (if lzma_action_eqb (a_action k) LZMA_FINISH
                         then LZMA_STREAM_END else LZMA_OK)))
             ks (drive ks c 0%nat).
Proof.
  cbv zeta. split; [reflexivity|]. split; [vm_compute; reflexivity|].
  exact (finish_state_is_terminal (L := stored) _
           (running 8 0 SEQ_FINISH) 0%nat eq_refl).
Defined.

(** An initializer that runs out of memory: the status is the
    collaborator's.  And a dispatcher whose [sequence] holds 7. *)
Lemma returned_status_provenance_run :
  let k := window [x5d; x41] 0 8 LZMA_RUN in
  let c := running 0 2 (SEQ_INVALID 7) in
  (fst (advance k (fresh 0) 0%nat) = Some LZMA_MEM_ERROR
   /\ exists e,
        In e (m_trace (snd (advance k (fresh 0) 0%nat)))
        /\ event_status e = Some LZMA_MEM_ERROR)
  /\ (fst (advance k c 0%nat) = Some LZMA_PROG_ERROR
      /\ sequence c = SEQ_INVALID 7
      /\ snd (advance k c 0%nat) = enter k c 0%nat).
Proof.
  cbv zeta.
  assert (H : fst (advance (window [x5d; x41] 0 8 LZMA_RUN) (fresh 0) 0%nat)
              = Some LZMA_MEM_ERROR) by (vm_compute; reflexivity).
  assert (H' : fst (advance (window [x5d; x41] 0 8 LZMA_RUN)
                      (running 0 2 (SEQ_INVALID 7)) 0%nat)
               = Some LZMA_PROG_ERROR) by (vm_compute; reflexivity).
  split.
  - split; [exact H|].
    destruct (proj1 (returned_status_provenance (L := stored)
                       (window [x5d; x41] 0 8 LZMA_RUN) (fresh 0) 0%nat
                       LZMA_MEM_ERROR H))
      as [Hown | [Hcol | [Hprog _]]].
    + exfalso. cbn in Hown.
      repeat (destruct Hown as [Hown|Hown]; [discriminate|]).
      exact Hown.
    + exact Hcol.
    + discriminate.
  - split; [exact H'|]. split; [reflexivity|].
    exact (proj2 (proj2 (returned_status_provenance (L := stored)
                           (window [x5d; x41] 0 8 LZMA_RUN)
                           (running 0 2 (SEQ_INVALID 7)) 0%nat
                           LZMA_PROG_ERROR H') 7 eq_refl)).
Defined.

(** The magic byte at offset 1: the stream decoder is set up and decodes
    in the same call. *)
Lemma detection_falls_through_to_code_run :
  let inb := [x00; xfd; x41; x42] in
  let m := enter (window inb 1 8 LZMA_RUN) (fresh 0) 1%nat in
  sequence (m_coder m) = SEQ_INIT
  /\ (m_in_pos m < 4)%nat
  /\ nth_error inb (m_in_pos m) = Some xfd
  /\ detected_status xfd m = LZMA_OK
  /\ auto_decode inb 4 8 LZMA_RUN m =
     auto_decode inb 4 8 LZMA_RUN (after_init xfd m)
  /\ m_in_pos (after_init xfd m) = 1%nat
  /\ fst (auto_decode inb 4 8 LZMA_RUN m) = Some LZMA_STREAM_END.
Proof.
  cbv zeta.
  assert (Hlt : (1 < 4)%nat) by lia.
  split; [reflexivity|]. split; [exact Hlt|]. split; [reflexivity|].
  split; [reflexivity|].
  destruct (detection_falls_through_to_code (L := stored)
              [x00; xfd; x41; x42] 4%nat 8%nat LZMA_RUN
              (enter (window [x00; xfd; x41; x42] 1 8 LZMA_RUN)
                 (fresh 0) 1%nat)
              xfd eq_refl Hlt eq_refl eq_refl (or_introl eq_refl))
    as (Heq & _ & Hpos & _).
  split; [exact Heq|]. split; [exact Hpos|].
  vm_compute. reflexivity.
Defined.

(** An LZMA_Alone first byte with only [LZMA_TELL_ANY_CHECK] set. *)
Lemma legacy_get_check_reported_at_detection_run :
  let inb := [x5d; x41] in
  let m := enter (window inb 0 0 LZMA_RUN) (fresh 4) 1%nat in
  sequence (m_coder m) = SEQ_INIT
  /\ nth_error inb (m_in_pos m) = Some x5d
  /\ Z.land (flags (m_coder m)) LZMA_TELL_NO_CHECK = 0
  /\ Z.land (flags (m_coder m)) LZMA_TELL_ANY_CHECK <> 0
  /\ fst (auto_decode inb 2 0 LZMA_RUN m) = Some LZMA_GET_CHECK
  /\ m_in_pos (snd (auto_decode inb 2 0 LZMA_RUN m)) = 0%nat
  /\ sequence (m_coder (snd (auto_decode inb 2 0 LZMA_RUN m))) = SEQ_CODE.
Proof.
  cbv zeta.
  assert (Hne : x5d <> xfd) by discriminate.
  assert (Hany : Z.land (flags (fresh 4)) LZMA_TELL_ANY_CHECK <> 0).
  { vm_compute. discriminate. }
  split; [reflexivity|]. split; [reflexivity|]. split; [reflexivity|].
  split; [exact Hany|].
  destruct (legacy_get_check_reported_at_detection (L := stored)
              [x5d; x41] 2%nat 0%nat LZMA_RUN
              (enter (window [x5d; x41] 0 0 LZMA_RUN) (fresh 4) 1%nat)
              x5d eq_refl (Nat.lt_0_succ 1) eq_refl Hne eq_refl Hany
              eq_refl)
    as (Hr & Hp & _ & _ & Hs & _).
  split; [exact Hr|]. split; [exact Hp|exact Hs].
Defined.

(** The stored decoder ends after two bytes and a third one follows. *)
Lemma stream_end_is_audited_in_the_same_call_run :
  let inb := [x41; x42; x2a] in
  let m := enter (window inb 0 8 LZMA_FINISH) (running 8 2 SEQ_CODE)
             0%nat in
  sequence (m_coder m) = SEQ_CODE
  /\ Z.land (flags (m_coder m)) LZMA_CONCATENATED <> 0
  /\ exists res,
       nested_call inb 3 8 LZMA_FINISH m = Some res
       /\ cr_ret res = LZMA_STREAM_END
       /\ cr_in_pos res = 2%nat
       /\ sequence (m_coder (snd (auto_decode inb 3 8 LZMA_FINISH m)))
          = SEQ_FINISH
       /\ fst (auto_decode inb 3 8 LZMA_FINISH m) = Some LZMA_DATA_ERROR.
Proof.
  cbv zeta.
  assert (Hc : Z.land (flags (running 8 2 SEQ_CODE)) LZMA_CONCATENATED <> 0).
  { vm_compute. discriminate. }
  split; [reflexivity|]. split; [exact Hc|].
  eexists. split; [vm_compute; reflexivity|].
  split; [reflexivity|]. split; [reflexivity|].
  destruct (stream_end_is_audited_in_the_same_call (L := stored)
              [x41; x42; x2a] 3%nat 8%nat LZMA_FINISH
              (enter (window [x41; x42; x2a] 0 8 LZMA_FINISH)
                 (running 8 2 SEQ_CODE) 0%nat)
              _ eq_refl eq_refl eq_refl Hc)
    as (Hs & _ & _ & _ & Hd & _).
  split; [exact Hs|]. apply Hd. cbn. lia.
Defined.

(** The allocator is exhausted at detection; the caller calls again. *)
Lemma call_after_failed_initializer_faults_run :
  let inb := [x5d; x41] in
  let m := enter (window inb 0 8 LZMA_RUN) (fresh 0) 0%nat in
  sequence (m_coder m) = SEQ_INIT
  /\ nth_error inb (m_in_pos m) = Some x5d
  /\ detected_status x5d m = LZMA_MEM_ERROR
  /\ code (snd (fst (detected_init x5d m))) = None
  /\ fst (auto_decode inb 2 8 LZMA_RUN m) = Some LZMA_MEM_ERROR
  /\ fst (advance (window inb 0 8 LZMA_RUN)
            (m_coder (snd (auto_decode inb 2 8 LZMA_RUN m)))
            (m_allocator (snd (auto_decode inb 2 8 LZMA_RUN m)))) = None.
Proof.
  cbv zeta.
  assert (Hne : detected_status x5d
                  (enter (window [x5d; x41] 0 8 LZMA_RUN) (fresh 0) 0%nat)
                <> LZMA_OK) by (vm_compute; discriminate).
  split; [reflexivity|]. split; [reflexivity|]. split; [reflexivity|].
  split; [reflexivity|].
  destruct (call_after_failed_initializer_faults (L := stored)
              [x5d; x41] 2%nat 8%nat LZMA_RUN
              (enter (window [x5d; x41] 0 8 LZMA_RUN) (fresh 0) 0%nat)
              x5d eq_refl (Nat.lt_0_succ 1) eq_refl Hne eq_refl)
    as (Hr & Hnext).
  split; [exact Hr|]. apply Hnext.
Defined.

(** Configuring an empty handle for concatenated streams. *)
Lemma configure_ok_resets_to_init_run :
  let r := auto_decoder_init LZMA_NEXT_CODER_INIT 1%nat 65536 0x08 in
  ir_ret r = LZMA_OK
  /\ Z.land 0x08 (lnot32 LZMA_SUPPORTED_FLAGS) = 0
  /\ exists c,
       coder (ir_next r) = Some c
       /\ sequence c = SEQ_INIT
       /\ memlimit c = 65536
       /\ flags c = 0x08.
Proof.
  cbv zeta.
  assert (H : ir_ret (auto_decoder_init (L := stored) LZMA_NEXT_CODER_INIT
                        1%nat 65536 0x08) = LZMA_OK)
    by (vm_compute; reflexivity).
  split; [exact H|].
  exact (configure_ok_resets_to_init (L := stored) LZMA_NEXT_CODER_INIT
           1%nat 65536 0x08 H).
Defined.

(** Re-configuring a dispatcher that had finished its stream. *)
Lemma reconfigure_reuses_dispatcher_run :
  let c := running 8 0 SEQ_FINISH in
  let n := handle c in
  let r := auto_decoder_init n 3%nat 1000 0x01 in
  init n = auto_decoder_init_addr
  /\ coder n = Some c
  /\ Z.land 0x01 (lnot32 LZMA_SUPPORTED_FLAGS) = 0
  /\ ir_ret r = LZMA_OK
  /\ ir_trace r = []
  /\ ir_allocator r = 3%nat
  /\ coder (ir_next r) =
     Some {| next := next c; memlimit := 1000; flags := 0x01;
             sequence := SEQ_INIT |}.
Proof.
  cbv zeta.
  split; [reflexivity|]. split; [reflexivity|]. split; [reflexivity|].
  destruct (reconfigure_reuses_dispatcher (L := stored)
              (handle (running 8 0 SEQ_FINISH)) 3%nat 1000 0x01
              (running 8 0 SEQ_FINISH) eq_refl eq_refl eq_refl)
    as (Hr & Ht & Ha & Hc & _).
  split; [exact Hr|]. split; [exact Ht|]. split; [exact Ha|exact Hc].
Defined.

(** The previous stream's decoder reports check kind 4; after
    re-configuration the dispatcher still reports 4, not
    [LZMA_CHECK_NONE]. *)
Lemma get_check_survives_reconfiguration_run :
  let c := running_checked 8 0 SEQ_FINISH in
  let n := handle c in
  let after :=
    auto_decoder_get_check
      (coder (ir_next (auto_decoder_init n 3%nat 1000 0x01))) in
  init n = auto_decoder_init_addr
  /\ coder n = Some c
  /\ Z.land 0x01 (lnot32 LZMA_SUPPORTED_FLAGS) = 0
  /\ get_check (next c) = Some stored_get_check
  /\ after = auto_decoder_get_check (coder n)
  /\ after = Some 4
  /\ after <> Some LZMA_CHECK_NONE.
Proof.
  cbv zeta.
  split; [reflexivity|]. split; [reflexivity|]. split; [reflexivity|].
  split; [reflexivity|].
  destruct (get_check_survives_reconfiguration (L := stored)
              (handle (running_checked 8 0 SEQ_FINISH)) 3%nat 1000 0x01
              (running_checked 8 0 SEQ_FINISH) eq_refl eq_refl eq_refl)
    as (Hsame & Hdel & _).
  split; [exact Hsame|].
  assert (H4 : auto_decoder_get_check
                 (coder (ir_next (auto_decoder_init (L := stored)
                                    (handle (running_checked 8 0 SEQ_FINISH))
                                    3%nat 1000 0x01))) = Some 4).
  { exact (Hdel stored_get_check eq_refl). }
  split; [exact H4|]. rewrite H4. discriminate.
Defined.

(** Configuring an empty handle with two blocks left. *)
Lemma configure_fresh_dispatcher_run :
  let n1 : lzma_next_coder allocator lzma_coder :=
    {| coder := None; init := 0x1000; code := None; end_ := None;
       get_check := None |} in
  let r := auto_decoder_init LZMA_NEXT_CODER_INIT 2%nat 65536 0x0F in
  lzma_next_coder_init auto_decoder_init_addr LZMA_NEXT_CODER_INIT 2%nat
  = (n1, 2%nat)
  /\ lzma_alloc 2%nat = (true, 1%nat)
  /\ ir_ret r = LZMA_OK
  /\ ir_trace r = [EvAlloc true]
  /\ ir_allocator r = 1%nat
  /\ auto_decoder_get_check (coder (ir_next r)) = Some LZMA_CHECK_NONE.
Proof.
  cbv zeta.
  split; [reflexivity|]. split; [reflexivity|].
  destruct (configure_fresh_dispatcher (L := stored)
              LZMA_NEXT_CODER_INIT 2%nat 65536 0x0F
              {| coder := None; init := 0x1000; code := None;
                 end_ := None; get_check := None |}
              2%nat 1%nat eq_refl eq_refl eq_refl eq_refl)
    as (Hr & Ht & Ha & _ & _ & _ & _ & Hg).
  split; [exact Hr|]. split; [exact Ht|]. split; [exact Ha|exact Hg].
Defined.

(** Configuring an empty handle with an exhausted allocator. *)
Lemma configure_allocation_failure_run :
  let n1 : lzma_next_coder allocator lzma_coder :=
    {| coder := None; init := 0x1000; code := None; end_ := None;
       get_check := None |} in
  let r := auto_decoder_init LZMA_NEXT_CODER_INIT 0%nat 65536 0x0F in
  lzma_next_coder_init auto_decoder_init_addr LZMA_NEXT_CODER_INIT 0%nat
  = (n1, 0%nat)
  /\ lzma_alloc 0%nat = (false, 0%nat)
  /\ ir_ret r = LZMA_MEM_ERROR
  /\ coder (ir_next r) = None.
Proof.
  cbv zeta.
  split; [reflexivity|]. split; [reflexivity|].
  destruct (configure_allocation_failure (L := stored)
              LZMA_NEXT_CODER_INIT 0%nat 65536 0x0F
              {| coder := None; init := 0x1000; code := None;
                 end_ := None; get_check := None |}
              0%nat 0%nat eq_refl eq_refl eq_refl eq_refl)
    as (Hr & _ & Hc & _).
  split; [exact Hr|exact Hc].
Defined.

(** A finished dispatcher, re-configured, meets a stream-format byte
    with one block left, and an LZMA_Alone byte with none. *)
Lemma reconfigured_dispatcher_detects_again_run :
  let c := running 8 0 SEQ_FINISH in
  let n := handle c in
  let c' := {| next := next c; memlimit := 1000; flags := 0x01;
               sequence := SEQ_INIT |} in
  (let k := window [xfd; x41] 0 8 LZMA_RUN in
   init n = auto_decoder_init_addr
   /\ coder n = Some c
   /\ Z.land 0x01 (lnot32 LZMA_SUPPORTED_FLAGS) = 0
   /\ (a_in_pos k < a_in_size k)%nat
   /\ nth_error (a_in k) (a_in_pos k) = Some xfd
   /\ coder (ir_next (auto_decoder_init n 1%nat 1000 0x01)) = Some c'
   /\ sequence (m_coder (snd (advance k c' 1%nat))) <> SEQ_INIT
   /\ advance k c' 1%nat =
      auto_decode (a_in k) (a_in_size k) (a_out_size k) (a_action k)
        {| m_coder :=
             {| next := snd (fst (stored_init 0x2000 3 (next c) 1));
                memlimit := 1000; flags := 0x01; sequence := SEQ_CODE |};
           m_allocator := 0%nat;
           m_in_pos := 0;
           m_out := a_out k;
           m_out_pos := 0;
           m_trace := [EvSequence SEQ_CODE; EvPeek 0 xfd;
                       EvStreamInit 1000 0x01 LZMA_OK] |})
  /\ (let k := window [x5d; x41] 0 8 LZMA_RUN in
      nth_error (a_in k) (a_in_pos k) = Some x5d
      /\ coder (ir_next (auto_decoder_init n 0%nat 1000 0x01)) = Some c'
      /\ advance k c' 0%nat =
         (Some LZMA_MEM_ERROR,
          {| m_coder :=
               {| next := next c; memlimit := 1000; flags := 0x01;
                  sequence := SEQ_CODE |};
             m_allocator := 0%nat;
             m_in_pos := 0;
             m_out := a_out k;
             m_out_pos := 0;
             m_trace := [EvSequence SEQ_CODE; EvPeek 0 x5d;
                         EvAloneInit 1000 LZMA_MEM_ERROR] |})).
Proof.
  cbv zeta.
  assert (Hlt : forall b,
             (a_in_pos (window [b; x41] 0 8 LZMA_RUN)
              < a_in_size (window [b; x41] 0 8 LZMA_RUN))%nat).
  { intros b. cbn. lia. }
  split.
  - split; [reflexivity|]. split; [reflexivity|]. split; [reflexivity|].
    split; [exact (Hlt xfd)|]. split; [reflexivity|].
    destruct (reconfigured_dispatcher_detects_again (L := stored)
                (handle (running 8 0 SEQ_FINISH)) 1%nat 1000 0x01
                (running 8 0 SEQ_FINISH)
                (window [xfd; x41] 0 8 LZMA_RUN) xfd
                eq_refl eq_refl eq_refl (Hlt xfd) eq_refl)
      as (Hc & _ & _ & Hs & _ & Hok).
    split; [exact Hc|]. split; [exact Hs|].
    exact (Hok eq_refl).
  - split; [reflexivity|].
    destruct (reconfigured_dispatcher_detects_again (L := stored)
                (handle (running 8 0 SEQ_FINISH)) 0%nat 1000 0x01
                (running 8 0 SEQ_FINISH)
                (window [x5d; x41] 0 8 LZMA_RUN) x5d
                eq_refl eq_refl eq_refl (Hlt x5d) eq_refl)
      as (Hc & _ & _ & _ & Hfail & _).
    split; [exact Hc|].
    apply Hfail. discriminate.
Defined.

End LifecycleRuns.
